(** * TerraTraceAI: the detection poller of the command-center page

    A shallow embedding of the stateful logic of [src/app/page.tsx]
    (the component [CommandCenterPage]): the video-id extraction
    [getYoutubeVideoId], the handlers [loadVideo], [handleDetect],
    [triggerMockAlert], [resetStatus], and the polling effect that owns the
    interval timer.

    JavaScript strings are sequences of UTF-16 code units, modelled as lists
    of [N].  The regular expression of [getYoutubeVideoId] is kept as a
    syntax tree and run by a backtracking matcher that follows the
    ECMAScript matching rules for the constructs the expression uses. *)

From Stdlib Require Import List NArith ZArith Bool Ascii Lia PeanoNat.
From Stdlib Require Strings.String.
From Stdlib Require Import Floats.PrimFloat.
Import ListNotations.
Import String.StringSyntax.
Delimit Scope string_scope with string.

Local Open Scope list_scope.

(* ================================================================== *)
(** ** JavaScript strings *)

Module JS.

(** A UTF-16 code unit. *)
Definition char := N.

Definition jsstring := list char.

(** A string literal of the source (ASCII only) as a JavaScript string. *)
Definition str (s : String.string) : jsstring :=
  map N_of_ascii (String.list_ascii_of_string s).
Arguments str s%_string.

(** [LineTerminator] of ECMAScript: LF, CR, LS, PS. *)
Definition is_line_terminator (c : char) : bool :=
  ((c =? 10) || (c =? 13) || (c =? 8232) || (c =? 8233))%N.

(** [WhiteSpace] of ECMAScript: TAB, VT, FF, ZWNBSP and the space
    separators (Unicode category Zs). *)
Definition is_white_space (c : char) : bool :=
  ((c =? 9) || (c =? 11) || (c =? 12) || (c =? 32) || (c =? 160)
   || (c =? 5760) || ((8192 <=? c) && (c <=? 8202))
   || (c =? 8239) || (c =? 8287) || (c =? 12288) || (c =? 65279))%N.

(** What [String.prototype.trim] strips. *)
Definition is_trimmed_char (c : char) : bool :=
  is_white_space c || is_line_terminator c.

(** [\w] without the [i] and [u] flags: [A-Za-z0-9_]. *)
Definition is_word_char (c : char) : bool :=
  (((65 <=? c) && (c <=? 90)) || ((97 <=? c) && (c <=? 122))
   || ((48 <=? c) && (c <=? 57)) || (c =? 95))%N.

Fixpoint dropWhile (p : char -> bool) (s : jsstring) : jsstring :=
  match s with
  | [] => []
  | c :: s' => if p c then dropWhile p s' else s
  end.

Fixpoint takeWhile (p : char -> bool) (s : jsstring) : jsstring :=
  match s with
  | [] => []
  | c :: s' => if p c then c :: takeWhile p s' else []
  end.

Definition trimStart (s : jsstring) : jsstring := dropWhile is_trimmed_char s.

Definition trimEnd (s : jsstring) : jsstring :=
  rev (dropWhile is_trimmed_char (rev s)).

(** [s.trim()] *)
Definition trim (s : jsstring) : jsstring := trimEnd (trimStart s).

(** Truthiness of a string: non-empty. *)
Definition truthy_string (s : jsstring) : bool :=
  match s with [] => false | _ :: _ => true end.

(** *** Numbers that hold integers

    A JavaScript number is an IEEE 754 double.  The counter of the page
    only ever holds integers, kept here as [Z].  [double_round x] is the
    double nearest to the integer [x], ties to the even significand: every
    integer up to 2^53 in magnitude is a double; beyond, the doubles are
    [ulp] apart, with [ulp = 2 ^ (log2 |x| - 52)].  (Magnitudes from 2^1024
    on, which round to an infinity, are not covered.) *)
Definition double_round (x : Z) : Z :=
  let a := Z.abs x in
  if (a <=? 2 ^ 53)%Z then x
  else
    let ulp := (2 ^ (Z.log2 a - 52))%Z in
    let q := (a / ulp)%Z in
    let r := (a mod ulp)%Z in
    let half := (ulp / 2)%Z in
    let q' := if (r <? half)%Z then q
              else if (half <? r)%Z then (q + 1)%Z
              else if Z.even q then q else (q + 1)%Z in
    (Z.sgn x * (q' * ulp))%Z.

(** [a + b] on two numbers that hold integers. *)
Definition js_add (a b : Z) : Z := double_round (a + b).

End JS.

Import JS.

(* ================================================================== *)
(** ** A backtracking matcher for the regular expression of the source *)

Module Regex.

Inductive regex : Type :=
| Eps                                (* the empty pattern *)
| Bol                                (* ^ (no m flag) *)
| Cls (p : char -> bool)             (* one character of a class *)
| Seq (r1 r2 : regex)                (* r1 r2 *)
| Alt (r1 r2 : regex)                (* r1|r2 *)
| Star (r : regex)                   (* r*, greedy *)
| Group (n : nat) (r : regex).       (* the n-th capturing group *)

(** The atoms the source expression uses. *)
Definition Chr (c : char) : regex := Cls (N.eqb c).
Definition Dot : regex := Cls (fun c => negb (is_line_terminator c)).
Definition Word : regex := Cls is_word_char.
Definition NoneOf (cs : jsstring) : regex :=
  Cls (fun c => negb (existsb (N.eqb c) cs)).

(** A run of literal characters. *)
Definition Lit (w : String.string) : regex :=
  fold_right (fun c r => Seq (Chr c) r) Eps (str w).
Arguments Lit w%_string.

(** Matcher state: the index reached, the input left, the captures. *)
Record mstate : Type := MState {
  pos : nat;
  rest : jsstring;
  caps : list (nat * jsstring)
}.

Definition cont := mstate -> option mstate.

Definition advance (n : nat) (st : mstate) : mstate :=
  {| pos := pos st + n; rest := skipn n (rest st); caps := caps st |}.

Definition set_cap (n : nat) (g : jsstring) (st : mstate) : mstate :=
  {| pos := pos st; rest := rest st; caps := (n, g) :: caps st |}.

Fixpoint lookup_cap (n : nat) (cs : list (nat * jsstring)) : option jsstring :=
  match cs with
  | [] => None
  | (i, g) :: cs' => if Nat.eqb i n then Some g else lookup_cap n cs'
  end.

(** [match[n]] *)
Definition cap (n : nat) (st : mstate) : option jsstring :=
  lookup_cap n (caps st).

Definition one (p : char -> bool) (st : mstate) (k : cont) : option mstate :=
  match rest st with
  | c :: _ => if p c then k (advance 1 st) else None
  | [] => None
  end.

(** Greedy iteration: one more round first, the continuation after; a
    round that consumes nothing is rejected, as in ECMAScript. *)
Fixpoint star_loop (step : mstate -> cont -> option mstate) (fuel : nat)
         (st : mstate) (k : cont) : option mstate :=
  match fuel with
  | O => k st
  | S fuel' =>
      match step st (fun st' =>
               if Nat.ltb (length (rest st')) (length (rest st))
               then star_loop step fuel' st' k else None) with
      | Some r => Some r
      | None => k st
      end
  end.

Fixpoint m (r : regex) (st : mstate) (k : cont) {struct r} : option mstate :=
  match r with
  | Eps => k st
  | Bol => if Nat.eqb (pos st) 0 then k st else None
  | Cls p => one p st k
  | Seq r1 r2 => m r1 st (fun st' => m r2 st' k)
  | Alt r1 r2 =>
      match m r1 st k with
      | Some x => Some x
      | None => m r2 st k
      end
  | Star r' => star_loop (m r') (length (rest st)) st k
  | Group n r' =>
      m r' st (fun st' => k (set_cap n (firstn (pos st' - pos st) (rest st)) st'))
  end.

(** [RegExp.prototype.exec] without the [g] and [y] flags: the first
    start index, from 0 on, at which the pattern matches. *)
Fixpoint exec_from (r : regex) (i : nat) (s : jsstring) : option mstate :=
  match m r {| pos := i; rest := s; caps := [] |} Some with
  | Some st => Some st
  | None =>
      match s with
      | [] => None
      | _ :: s' => exec_from r (S i) s'
      end
  end.

(** [s.match(r)] *)
Definition exec (r : regex) (s : jsstring) : option mstate := exec_from r 0 s.

Declare Scope regex_scope.
Delimit Scope regex_scope with re.
Infix ">>" := Seq (at level 40, left associativity) : regex_scope.
Infix "||" := Alt (at level 50, left associativity) : regex_scope.

End Regex.

Import Regex.

(* ================================================================== *)
(** ** [getYoutubeVideoId] *)

(** The pattern of the source: anchored at the start, any run of
    characters, group 1 with the six markers [youtu.be/], [v/], [u/\w/],
    [embed/], [watch?v=], [&v=] (the dot of the first is unescaped), group 2
    with a run of characters other than [#], [&], [?], any run of
    characters. *)
Definition regExp : regex :=
  (Bol >> Star Dot
   >> Group 1 (Lit "youtu" >> Dot >> Lit "be/"
              || Lit "v/"
              || Lit "u/" >> Word >> Lit "/"
              || Lit "embed/"
              || Lit "watch?v="
              || Lit "&v=")
   >> Group 2 (Star (NoneOf (str "#&?")))
   >> Star Dot)%re.

Definition getYoutubeVideoId (url : jsstring) : option jsstring :=
  if negb (truthy_string url) then None
  else
    match exec regExp url with
    | Some mt =>
        match cap 2 mt with
        | Some g => if Nat.eqb (length g) 11 then Some g else None
        | None => None
        end
    | None => None
    end.

(* ================================================================== *)
(** ** What the pattern accepts, stated without the matcher *)

Module Shape.

(** A fixed-length pattern: one class per character. *)
Definition pat := list (char -> bool).

Definition lit (w : String.string) : pat := map N.eqb (str w).
Arguments lit w%_string.

Definition any_char : char -> bool := fun c => negb (is_line_terminator c).

Fixpoint pat_match (p : pat) (s : jsstring) : bool :=
  match p, s with
  | [], _ => true
  | f :: p', c :: s' => f c && pat_match p' s'
  | _ :: _, [] => false
  end.

(** The six markers that may precede a video id, in the order of the
    source. *)
Definition markers : list pat :=
  [ lit "youtu" ++ [any_char] ++ lit "be/";
    lit "v/";
    lit "u/" ++ [is_word_char] ++ lit "/";
    lit "embed/";
    lit "watch?v=";
    lit "&v=" ].

(** The length of the marker that starts [s], if one does. *)
Definition marker_at_head (s : jsstring) : option nat :=
  option_map (@length _) (find (fun p => pat_match p s) markers).

(** [mk] is, as a whole, one of the markers. *)
Definition is_marker (mk : jsstring) : Prop :=
  marker_at_head mk = Some (length mk).

Definition token_char (c : char) : bool :=
  negb (existsb (N.eqb c) (str "#&?")).

(** The run of token characters that starts [s]. *)
Definition token (s : jsstring) : jsstring := takeWhile token_char s.

Definition after_marker (s : jsstring) : option jsstring :=
  match marker_at_head s with
  | Some n => Some (skipn n s)
  | None => None
  end.

(** The text that follows the last marker starting on the first line of
    [s]: what the greedy first run of the pattern leaves to group 2. *)
Fixpoint last_marker (s : jsstring) : option jsstring :=
  match s with
  | [] => after_marker s
  | c :: s' =>
      if is_line_terminator c then after_marker s
      else
        match last_marker s' with
        | Some r => Some r
        | None => after_marker s
        end
  end.

(** The length of the first line of [s]. *)
Definition line_length (s : jsstring) : nat :=
  length (takeWhile any_char s).

Definition no_marker_at (u : jsstring) (j : nat) : bool :=
  match marker_at_head (skipn j u) with
  | None => true
  | Some _ => false
  end.

(** No marker starts after position [n] on the first line of [u]. *)
Definition later_marker_free (n : nat) (u : jsstring) : bool :=
  forallb (no_marker_at u) (seq (S n) (line_length u - n)).

(** No marker starts anywhere in [u]. *)
Definition marker_free (u : jsstring) : bool :=
  forallb (no_marker_at u) (seq 0 (S (length u))).

(** [u] has one of the known video-URL shapes: somewhere a marker is
    followed by a token of exactly 11 characters, which ends the string
    or is followed by one of [#], [&], [?]. *)
Definition known_shape (u : jsstring) : Prop :=
  exists p mk tok tail,
    u = p ++ mk ++ tok ++ tail /\
    is_marker mk /\
    length tok = 11 /\
    forallb token_char tok = true /\
    token tail = [].

End Shape.

Import Shape.

(* ================================================================== *)
(** ** JSON values and the JavaScript operations applied to them *)

Module Json.

#[local] Set Warnings "-register-all".

(** A value produced by [response.json()].  [JObj] lists the own
    properties of the object, each name once. *)
Inductive json : Type :=
| JNull
| JBool (b : bool)
| JNum (x : float)
| JStr (s : jsstring)
| JArr (items : list json)
| JObj (fields : list (jsstring * json)).

(** What a [catch] clause receives. *)
Inductive thrown : Type :=
| ThrownError (message : jsstring)     (* err instanceof Error *)
| ThrownOther.                         (* any other value *)

Inductive result (A : Type) : Type :=
| Ok (a : A)
| Throw (e : thrown).
Arguments Ok {A} a.
Arguments Throw {A} e.

(** What differs between JavaScript engines. *)
Record Engine : Type := {
  (** the message of the [TypeError] raised by reading property [k] of
      [null] *)
  null_property_message : jsstring -> jsstring;
  (** the message of the error caught after [throw new Error(v)] for a
      truthy [v] that is not a string *)
  error_message_of : json -> jsstring
}.

Fixpoint string_eqb (a b : jsstring) : bool :=
  match a, b with
  | [], [] => true
  | x :: a', y :: b' => N.eqb x y && string_eqb a' b'
  | _, _ => false
  end.

(** The own property [k] of an object with the given fields. *)
Fixpoint own_property (k : jsstring) (fields : list (jsstring * json)) : option json :=
  match fields with
  | [] => None
  | (k', v) :: fields' => if string_eqb k' k then Some v else own_property k fields'
  end.

(** [v.k] for one of the names [triggered], [error], [message]; [None]
    is [undefined]. *)
Definition get (eng : Engine) (v : json) (k : jsstring) : result (option json) :=
  match v with
  | JNull => Throw (ThrownError (null_property_message eng k))
  | JObj fields => Ok (own_property k fields)
  | _ => Ok None
  end.
Arguments get eng v k%_list.

(** [v?.k] *)
Definition get_opt (v : option json) (k : jsstring) : option json :=
  match v with
  | None | Some JNull => None
  | Some (JObj fields) => own_property k fields
  | Some _ => None
  end.

Definition truthy (v : json) : bool :=
  match v with
  | JNull => false
  | JBool b => b
  | JNum x => negb (PrimFloat.eqb x PrimFloat.zero) && negb (PrimFloat.is_nan x)
  | JStr s => truthy_string s
  | JArr _ | JObj _ => true
  end.

Definition truthy_opt (v : option json) : bool :=
  match v with
  | Some v' => truthy v'
  | None => false
  end.

(** What [throw new Error(v)] hands to the [catch] clause. *)
Definition new_Error (eng : Engine) (v : json) : thrown :=
  match v with
  | JStr s => ThrownError s
  | _ => ThrownError (error_message_of eng v)
  end.

End Json.

Import Json.

(* ================================================================== *)
(** ** The component state *)

Inductive AiStatus : Type := running | warning | alert.

(** [activeAlerts] is a JavaScript number that only ever holds an integer;
    the model keeps that integer and adds with [js_add], which is exact
    below 2^53 and gives 2^53 back for 2^53 + 1. *)
Record State : Type := {
  aiStatus : AiStatus;
  activeAlerts : Z;
  youtubeUrl : jsstring;
  videoId : option jsstring;
  errorTip : jsstring;
  detectResult : json;             (* [JNull] is [null] *)
  detectLoading : bool
}.

(** The values given to [useState]. *)
Definition initial_state : State :=
  {| aiStatus := running; activeAlerts := 0; youtubeUrl := []; videoId := None;
     errorTip := []; detectResult := JNull; detectLoading := false |}.

Definition setAiStatus (v : AiStatus) (s : State) : State :=
  {| aiStatus := v; activeAlerts := activeAlerts s; youtubeUrl := youtubeUrl s;
     videoId := videoId s; errorTip := errorTip s; detectResult := detectResult s;
     detectLoading := detectLoading s |}.

(** [setActiveAlerts] with an updater function. *)
Definition setActiveAlerts (f : Z -> Z) (s : State) : State :=
  {| aiStatus := aiStatus s; activeAlerts := f (activeAlerts s); youtubeUrl := youtubeUrl s;
     videoId := videoId s; errorTip := errorTip s; detectResult := detectResult s;
     detectLoading := detectLoading s |}.

Definition setYoutubeUrl (v : jsstring) (s : State) : State :=
  {| aiStatus := aiStatus s; activeAlerts := activeAlerts s; youtubeUrl := v;
     videoId := videoId s; errorTip := errorTip s; detectResult := detectResult s;
     detectLoading := detectLoading s |}.

Definition setVideoId (v : option jsstring) (s : State) : State :=
  {| aiStatus := aiStatus s; activeAlerts := activeAlerts s; youtubeUrl := youtubeUrl s;
     videoId := v; errorTip := errorTip s; detectResult := detectResult s;
     detectLoading := detectLoading s |}.

Definition setErrorTip (v : jsstring) (s : State) : State :=
  {| aiStatus := aiStatus s; activeAlerts := activeAlerts s; youtubeUrl := youtubeUrl s;
     videoId := videoId s; errorTip := v; detectResult := detectResult s;
     detectLoading := detectLoading s |}.

Definition setDetectResult (v : json) (s : State) : State :=
  {| aiStatus := aiStatus s; activeAlerts := activeAlerts s; youtubeUrl := youtubeUrl s;
     videoId := videoId s; errorTip := errorTip s; detectResult := v;
     detectLoading := detectLoading s |}.

Definition setDetectLoading (v : bool) (s : State) : State :=
  {| aiStatus := aiStatus s; activeAlerts := activeAlerts s; youtubeUrl := youtubeUrl s;
     videoId := videoId s; errorTip := errorTip s; detectResult := detectResult s;
     detectLoading := v |}.

(** Truthiness of a [string | null]. *)
Definition truthy_id (v : option jsstring) : bool :=
  match v with
  | Some s => truthy_string s
  | None => false
  end.

(** The constants read from the environment; an unset variable is the
    empty string. *)
Record Config : Type := {
  TRIO_API_URL : jsstring;
  TRIO_API_KEY : jsstring;
  DETECT_PROMPT : jsstring
}.

(* ================================================================== *)
(** ** The external call *)

Record Request : Type := {
  req_url : jsstring;
  req_method : jsstring;
  req_headers : list (jsstring * jsstring);
  req_body : json                  (* the object given to [JSON.stringify] *)
}.

(** What [await response.json()] gives. *)
Inductive Body : Type :=
| BodyRejected (e : thrown)        (* the body is not JSON *)
| BodyJson (v : json).

(** What [await fetch(...)] gives. *)
Inductive Outcome : Type :=
| FetchRejected (e : thrown)       (* network or transport error *)
| Response (ok : bool) (b : Body).

(* ================================================================== *)
(** ** The handlers *)

Definition msg_load_first : jsstring :=
  str "Please load a valid YouTube video before running detection".
Definition msg_bad_config : jsstring :=
  str "Invalid environment configuration. Check .env.local file and restart the project".
Definition msg_api_failed : jsstring := str "Trio API call failed".
Definition msg_request_failed : jsstring :=
  str "Detection request failed, please try again".
Definition msg_invalid_link : jsstring :=
  str "Invalid link, please enter a valid YouTube video URL".

(** The request built by [handleDetect]. *)
Definition detect_request (cfg : Config) (trimedUrl : jsstring) : Request :=
  {| req_url := TRIO_API_URL cfg;
     req_method := str "POST";
     req_headers := [ (str "Authorization", str "Bearer " ++ TRIO_API_KEY cfg);
                      (str "Content-Type", str "application/json") ];
     req_body := JObj [ (str "stream_url", JStr trimedUrl);
                        (str "condition", JStr (DETECT_PROMPT cfg)) ] |}.

(** [handleDetect] up to and including the call of [fetch].  [url] is the
    [youtubeUrl] of the render whose closure runs.  [None]: the handler
    returned before the call. *)
Definition handleDetect_start (cfg : Config) (url : jsstring) (s : State)
  : State * option Request :=
  let trimedUrl := trim url in
  if negb (truthy_string trimedUrl) || negb (truthy_id (getYoutubeVideoId trimedUrl)) then
    (setErrorTip msg_load_first s, None)
  else if negb (truthy_string (TRIO_API_URL cfg)) || negb (truthy_string (TRIO_API_KEY cfg)) then
    (setErrorTip msg_bad_config s, None)
  else
    (setErrorTip [] (setDetectLoading true s), Some (detect_request cfg trimedUrl)).

(** The [try] block after [fetch] has settled: the state it leaves and
    what it throws, if it throws. *)
Definition try_block (eng : Engine) (o : Outcome) (s : State) : State * option thrown :=
  match o with
  | FetchRejected e => (s, Some e)
  | Response _ (BodyRejected e) => (s, Some e)
  | Response true (BodyJson result) =>
      let s1 := setDetectResult result s in
      match get eng result (str "triggered") with
      | Throw e => (s1, Some e)
      | Ok triggered =>
          if truthy_opt triggered
          then (setActiveAlerts (fun prev => js_add prev 1) (setAiStatus alert s1), None)
          else (s1, None)
      end
  | Response false (BodyJson result) =>
      match get eng result (str "error") with
      | Throw e => (s, Some e)
      | Ok error =>
          let message := get_opt error (str "message") in
          if truthy_opt message
          then (s, option_map (new_Error eng) message)
          else (s, Some (ThrownError msg_api_failed))
      end
  end.

(** The [catch] clause. *)
Definition catch_block (e : thrown) (s : State) : State :=
  let errorMsg :=
    match e with
    | ThrownError message => message
    | ThrownOther => msg_request_failed
    end in
  setErrorTip errorMsg s.

(** [handleDetect] from the moment [fetch] settles, on the state of that
    moment. *)
Definition handleDetect_finish (eng : Engine) (o : Outcome) (s : State) : State :=
  let (s1, exn) := try_block eng o s in
  let s2 := match exn with Some e => catch_block e s1 | None => s1 end in
  setDetectLoading false s2.

(** One whole run of [handleDetect] with nothing else in between: the
    final state and the requests sent.  [net] answers the request. *)
Definition handleDetect (cfg : Config) (eng : Engine) (net : Request -> Outcome)
           (s : State) : State * list Request :=
  match handleDetect_start cfg (youtubeUrl s) s with
  | (s1, None) => (s1, [])
  | (s1, Some req) => (handleDetect_finish eng (net req) s1, [req])
  end.

Definition loadVideo (s : State) : State :=
  let s1 := setDetectResult JNull (setErrorTip [] s) in
  let targetVideoId := getYoutubeVideoId (trim (youtubeUrl s)) in
  if negb (truthy_id targetVideoId)
  then setVideoId None (setErrorTip msg_invalid_link s1)
  else setVideoId targetVideoId s1.

Definition triggerMockAlert (s : State) : State :=
  setActiveAlerts (fun _ => 1%Z) (setAiStatus alert s).

Definition resetStatus (s : State) : State :=
  setDetectResult JNull (setActiveAlerts (fun _ => 0%Z) (setAiStatus running s)).

(** The [disabled] attribute of the manual-detect button. *)
Definition detect_disabled (s : State) : bool :=
  negb (truthy_id (videoId s)) || detectLoading s.

(* ================================================================== *)
(** ** The page: state, timer, calls in flight *)

(** An interval timer of the environment.  Its callback runs the
    [handleDetect] of the render that created it. *)
Record Timer : Type := {
  timer_id : nat;
  timer_delay : Z;                 (* milliseconds *)
  timer_url : jsstring             (* [youtubeUrl] in the callback's closure *)
}.

(** What the page does to its environment, in order. *)
Inductive Obs : Type :=
| ObsDetect                        (* [handleDetect] is called *)
| ObsFetch (r : Request)           (* [fetch] is called *)
| ObsSetInterval (id : nat) (delay : Z)
| ObsClearInterval (id : nat).

Record Page : Type := {
  ui : State;
  pollTimerRef : option nat;       (* [pollTimerRef.current] *)
  timers : list Timer;             (* the interval timers that are running *)
  next_timer : nat;                (* the next timer handle *)
  inflight : list Request;         (* calls of [fetch] not yet settled *)
  trace : list Obs                 (* oldest first *)
}.

Definition with_ui (f : State -> State) (pg : Page) : Page :=
  {| ui := f (ui pg); pollTimerRef := pollTimerRef pg; timers := timers pg;
     next_timer := next_timer pg; inflight := inflight pg; trace := trace pg |}.

Definition clearInterval (id : nat) (pg : Page) : Page :=
  {| ui := ui pg; pollTimerRef := pollTimerRef pg;
     timers := filter (fun t => negb (Nat.eqb (timer_id t) id)) (timers pg);
     next_timer := next_timer pg; inflight := inflight pg;
     trace := trace pg ++ [ObsClearInterval id] |}.

(** [pollTimerRef.current = setInterval(callback, delay)] *)
Definition setInterval_ref (delay : Z) (url : jsstring) (pg : Page) : Page :=
  let id := next_timer pg in
  {| ui := ui pg; pollTimerRef := Some id;
     timers := timers pg ++ [{| timer_id := id; timer_delay := delay; timer_url := url |}];
     next_timer := S id; inflight := inflight pg;
     trace := trace pg ++ [ObsSetInterval id delay] |}.

Definition set_ref (r : option nat) (pg : Page) : Page :=
  {| ui := ui pg; pollTimerRef := r; timers := timers pg;
     next_timer := next_timer pg; inflight := inflight pg; trace := trace pg |}.

(** A call of [handleDetect] from the closure that holds [url]: the part
    before [await]; the request, if sent, stays in flight. *)
Definition call_handleDetect (cfg : Config) (url : jsstring) (pg : Page) : Page :=
  let (s1, req) := handleDetect_start cfg url (ui pg) in
  {| ui := s1; pollTimerRef := pollTimerRef pg; timers := timers pg;
     next_timer := next_timer pg;
     inflight := inflight pg ++ match req with Some r => [r] | None => [] end;
     trace := trace pg ++ ObsDetect :: match req with Some r => [ObsFetch r] | None => [] end |}.

(** The condition under which the effect polls. *)
Definition poll_guard (cfg : Config) (s : State) : bool :=
  truthy_id (videoId s) && truthy_string (trim (youtubeUrl s))
  && truthy_string (TRIO_API_URL cfg) && truthy_string (TRIO_API_KEY cfg).

(** The body of the polling effect. *)
Definition effect_body (cfg : Config) (pg : Page) : Page :=
  if poll_guard cfg (ui pg) then
    setInterval_ref (60 * 1000) (youtubeUrl (ui pg))
                    (call_handleDetect cfg (youtubeUrl (ui pg)) pg)
  else
    match pollTimerRef pg with
    | Some id => set_ref None (clearInterval id pg)
    | None => pg
    end.

(** The function the effect returns. *)
Definition effect_cleanup (pg : Page) : Page :=
  match pollTimerRef pg with
  | Some id => clearInterval id pg
  | None => pg
  end.

Definition opt_string_eqb (a b : option jsstring) : bool :=
  match a, b with
  | Some x, Some y => string_eqb x y
  | None, None => true
  | _, _ => false
  end.

(** The dependency list [videoId, youtubeUrl] differs between two
    renders. *)
Definition deps_changed (old new : State) : bool :=
  negb (opt_string_eqb (videoId old) (videoId new))
  || negb (string_eqb (youtubeUrl old) (youtubeUrl new)).

(** After a render: when a dependency changed, the cleanup of the last
    run of the effect, then the effect. *)
Definition commit (cfg : Config) (old : State) (pg : Page) : Page :=
  if deps_changed old (ui pg) then effect_body cfg (effect_cleanup pg) else pg.

(** Before the first render. *)
Definition unmounted : Page :=
  {| ui := initial_state; pollTimerRef := None; timers := []; next_timer := 1;
     inflight := []; trace := [] |}.

(** After the first render: the effect has run once. *)
Definition mounted (cfg : Config) : Page := effect_body cfg unmounted.

Inductive Event : Type :=
| EvType (text : jsstring)         (* the input's onChange *)
| EvLoad                           (* the load button, or Enter in the input *)
| EvDetectClick                    (* the manual-detect button *)
| EvSimulate                       (* the simulate-alert button *)
| EvReset                          (* the normal-mode button *)
| EvTick (id : nat)                (* the interval timer [id] fires *)
| EvSettle (n : nat) (o : Outcome). (* the n-th call in flight settles *)

Fixpoint remove_nth {A : Type} (n : nat) (l : list A) : list A :=
  match n, l with
  | _, [] => []
  | O, _ :: l' => l'
  | S n', x :: l' => x :: remove_nth n' l'
  end.

Definition set_inflight (l : list Request) (pg : Page) : Page :=
  {| ui := ui pg; pollTimerRef := pollTimerRef pg; timers := timers pg;
     next_timer := next_timer pg; inflight := l; trace := trace pg |}.

(** The handler of an event, before the render it causes. *)
Definition handle (cfg : Config) (eng : Engine) (e : Event) (pg : Page) : Page :=
  match e with
  | EvType text => with_ui (setYoutubeUrl text) pg
  | EvLoad => with_ui loadVideo pg
  | EvDetectClick =>
      if detect_disabled (ui pg) then pg
      else call_handleDetect cfg (youtubeUrl (ui pg)) pg
  | EvSimulate => with_ui triggerMockAlert pg
  | EvReset => with_ui resetStatus pg
  | EvTick id =>
      match find (fun t => Nat.eqb (timer_id t) id) (timers pg) with
      | Some t => call_handleDetect cfg (timer_url t) pg
      | None => pg
      end
  | EvSettle n o =>
      match nth_error (inflight pg) n with
      | Some _ =>
          with_ui (handleDetect_finish eng o) (set_inflight (remove_nth n (inflight pg)) pg)
      | None => pg
      end
  end.

(** One event: its handler, then the render and the effect.  The render
    is taken to succeed; it throws, and the page is gone, when the stored
    result does not satisfy [result_renders].  It succeeds along every
    sequence of events that satisfy [event_renders], see [run_renders]. *)
Definition step (cfg : Config) (eng : Engine) (pg : Page) (e : Event) : Page :=
  commit cfg (ui pg) (handle cfg eng e pg).

Definition run (cfg : Config) (eng : Engine) (evs : list Event) : Page :=
  fold_left (step cfg eng) evs (mounted cfg).

(* ================================================================== *)
(** ** The configuration and what the page renders *)

(** [process.env]: a variable is unset or holds a string. *)
Record Env : Type := {
  NEXT_PUBLIC_TRIO_API_URL : option jsstring;
  NEXT_PUBLIC_TRIO_API_KEY : option jsstring;
  NEXT_PUBLIC_TRIO_DETECT_PROMPT : option jsstring
}.

(** [v || d] for a [string | undefined]. *)
Definition or_default (v : option jsstring) (d : jsstring) : jsstring :=
  match v with
  | Some s => if truthy_string s then s else d
  | None => d
  end.

(** The three module-level constants. *)
Definition config_of_env (env : Env) : Config :=
  {| TRIO_API_URL := or_default (NEXT_PUBLIC_TRIO_API_URL env) [];
     TRIO_API_KEY := or_default (NEXT_PUBLIC_TRIO_API_KEY env) [];
     DETECT_PROMPT := or_default (NEXT_PUBLIC_TRIO_DETECT_PROMPT env)
                        (str "Is there an animated character visible?") |}.

(** The [src] of the player frame for the video [id]. *)
Definition player_src (id : jsstring) : jsstring :=
  str "https://www.youtube.com/embed/" ++ id ++ str "?autoplay=1&rel=0&controls=1".

Definition status_eqb (a b : AiStatus) : bool :=
  match a, b with
  | running, running | warning, warning | alert, alert => true
  | _, _ => false
  end.

(** The text of the status bar. *)
Definition status_bar_text (s : State) : jsstring :=
  if status_eqb (aiStatus s) running then str "LIVE INFERENCE" else str "ALERT TRIGGERED".

(** Whether the active alert is pinned to the top of the alert list:
    [activeAlerts > 0]. *)
Definition active_alert_pinned (s : State) : bool := (0 <? activeAlerts s)%Z.

(** What the video container holds: the player frame when [videoId] is
    truthy, else the placeholder, with the intrusion overlay when the
    status is alert. *)
Inductive Player : Type :=
| Frame (src : jsstring)
| Placeholder (overlay : bool).

Definition player (s : State) : Player :=
  match videoId s with
  | Some id =>
      if truthy_string id then Frame (player_src id)
      else Placeholder (status_eqb (aiStatus s) alert)
  | None => Placeholder (status_eqb (aiStatus s) alert)
  end.

(** [v.k] for a [v] that is not [null] ([None] is [undefined]). *)
Definition property (v : json) (k : jsstring) : option json :=
  match v with
  | JObj fields => own_property k fields
  | _ => None
  end.

Definition text_secure : jsstring := 9989%N :: str " Secure / No Threats".
Definition text_high_risk : jsstring := 10060%N :: str " High Risk Alert".

(** The detection-status line of the result panel; [None] when the panel
    is not rendered ([detectResult] is falsy). *)
Definition result_panel_status (s : State) : option jsstring :=
  if truthy (detectResult s) then
    Some (if negb (truthy_opt (property (detectResult s) (str "triggered")))
          then text_secure else text_high_risk)
  else None.

(** Whether React accepts [v] as a child: a plain object is refused (the
    render throws), an array is rendered item by item, anything else is
    text or nothing. *)
Fixpoint child_renders (v : json) : bool :=
  match v with
  | JObj _ => false
  | JArr items =>
      (fix all (l : list json) : bool :=
         match l with
         | [] => true
         | x :: l' => child_renders x && all l'
         end) items
  | _ => true
  end.

Definition child_renders_opt (v : option json) : bool :=
  match v with
  | Some v' => child_renders v'
  | None => true
  end.

(** Whether the result panel renders for the stored result [r]: when [r]
    is truthy, its [latency_ms] and its [explanation] are children of the
    panel. *)
Definition result_renders (r : json) : bool :=
  if truthy r
  then child_renders_opt (property r (str "latency_ms"))
       && child_renders_opt (property r (str "explanation"))
  else true.

(** Whether the page still renders once the call has settled with [o]:
    only an HTTP-ok body is stored. *)
Definition outcome_renders (o : Outcome) : bool :=
  match o with
  | Response true (BodyJson r) => result_renders r
  | _ => true
  end.

Definition event_renders (e : Event) : bool :=
  match e with
  | EvSettle _ o => outcome_renders o
  | _ => true
  end.

(** The label of the manual-detect button. *)
Definition detect_button_label (s : State) : jsstring :=
  if detectLoading s then str "Detecting..." else str "Manual Detect".

(* ================================================================== *)
(** ** Auxiliary definitions for the proofs *)

(** The greedy run of a one-character class, by recursion on the input. *)
Fixpoint greedy (p : char -> bool) (i : nat) (s : jsstring)
         (cs : list (nat * jsstring)) (k : cont) : option mstate :=
  match s with
  | [] => k (MState i [] cs)
  | c :: s' =>
      if p c then
        match greedy p (i + 1) s' cs k with
        | Some r => Some r
        | None => k (MState i s cs)
        end
      else k (MState i s cs)
  end.

(** The fixed-length pattern of an expression built from classes and
    concatenation only. *)
Fixpoint pat_of (r : regex) : option pat :=
  match r with
  | Eps => Some []
  | Cls p => Some [p]
  | Seq r1 r2 =>
      match pat_of r1, pat_of r2 with
      | Some a, Some b => Some (a ++ b)
      | _, _ => None
      end
  | _ => None
  end.

(** [m r] tries the patterns of [l] in order. *)
Definition tries (k : cont) (r : regex) (l : list pat) : Prop :=
  forall st,
    m r st k =
    match find (fun p => pat_match p (rest st)) l with
    | Some p => k (advance (length p) st)
    | None => None
    end.

(** The continuations of the pattern after its first run. *)
Definition k_tail : cont := fun st => m (Star Dot) st Some.
Definition k_group2 : cont :=
  fun st => m (Group 2 (Star (NoneOf (str "#&?")))) st k_tail.
Definition group1 : regex :=
  Group 1 (Lit "youtu" >> Dot >> Lit "be/" || Lit "v/" || Lit "u/" >> Word >> Lit "/"
           || Lit "embed/" || Lit "watch?v=" || Lit "&v=")%re.
Definition k_group1 : cont := fun st => m group1 st k_group2.

(** The timer the page owns in state [pg]: one 60-second timer whose
    callback reads the current URL when the polling condition holds, none
    otherwise. *)
Definition poll_timer (cfg : Config) (pg : Page) : Prop :=
  if poll_guard cfg (ui pg) then
    exists id,
      pollTimerRef pg = Some id /\
      timers pg = [{| timer_id := id; timer_delay := 60 * 1000;
                      timer_url := youtubeUrl (ui pg) |}]
  else
    pollTimerRef pg = None /\ timers pg = [].

(** What the reachable component states have in common. *)
Definition sound (s : State) : Prop :=
  (0 <= activeAlerts s)%Z /\ (aiStatus s = running \/ aiStatus s = alert).

(** A class that accepts no line terminator. *)
Definition one_line (f : char -> bool) : Prop :=
  forall c, f c = true -> any_char c = true.

(** What [player_src] puts after the video id. *)
Definition player_tail : jsstring := str "?autoplay=1&rel=0&controls=1".

(** No marker reaches from a video id into [player_tail]. *)
Definition no_straddle : bool :=
  forallb (fun p => forallb (fun k => negb (pat_match (skipn k p) player_tail))
                            (seq 1 (length p - 1)))
          markers.

(** Status and counter move together. *)
Definition in_step (s : State) : Prop :=
  (aiStatus s = running /\ activeAlerts s = 0%Z) \/
  (aiStatus s = alert /\ (1 <= activeAlerts s)%Z).

(** The stored result, when it says triggered, is matched by the
    status. *)
Definition result_backed (s : State) : Prop :=
  truthy_opt (property (detectResult s) (str "triggered")) = true -> aiStatus s = alert.

(** The stream reference, when present, was extracted from some input. *)
Definition reference_extracted (s : State) : Prop :=
  forall id, videoId s = Some id -> exists u, getYoutubeVideoId u = Some id.

Definition coherent (s : State) : Prop :=
  in_step s /\ result_backed s /\ reference_extracted s.

(** A request as [handleDetect] sends it when all its guards pass. *)
Definition guarded_request (cfg : Config) (r : Request) : Prop :=
  exists url id,
    r = detect_request cfg (trim url) /\
    getYoutubeVideoId (trim url) = Some id /\
    TRIO_API_URL cfg <> [] /\ TRIO_API_KEY cfg <> [].

(** What the page may do to its environment. *)
Definition guarded_obs (cfg : Config) (o : Obs) : Prop :=
  match o with
  | ObsFetch r => guarded_request cfg r
  | ObsSetInterval _ delay =>
      delay = 60000%Z /\ TRIO_API_URL cfg <> [] /\ TRIO_API_KEY cfg <> []
  | _ => True
  end.

Definition guarded (cfg : Config) (pg : Page) : Prop :=
  Forall (guarded_obs cfg) (trace pg) /\
  Forall (guarded_request cfg) (inflight pg) /\
  (detectLoading (ui pg) = true -> inflight pg <> []).

(* ================================================================== *)
(** ** Sample data *)

Module Sample.

Definition cfg : Config :=
  {| TRIO_API_URL := str "https://trio.example/api/check-once";
     TRIO_API_KEY := str "secret";
     DETECT_PROMPT := str "Is there an animated character visible?" |}.

Definition eng : Engine :=
  {| null_property_message :=
       fun k => str "Cannot read properties of null (reading '" ++ k ++ str "')";
     error_message_of := fun _ => str "[object Object]" |}.

Definition watch_url : jsstring := str "https://www.youtube.com/watch?v=XsOU8JnEpNM".

Definition XsOU8JnEpNM : jsstring := str "XsOU8JnEpNM".

(** A watch URL with a further parameter whose value holds a path. *)
Definition ref_url : jsstring :=
  str "https://www.youtube.com/watch?v=XsOU8JnEpNM&ref=dev/null".

Definition triggered_fields : list (jsstring * json) :=
  [ (str "triggered", JBool true);
    (str "explanation", JStr (str "A vehicle is visible"));
    (str "latency_ms", JNum 420%float) ].

Definition quiet_fields : list (jsstring * json) :=
  [ (str "triggered", JBool false);
    (str "explanation", JStr (str "Nothing is visible"));
    (str "latency_ms", JNum 380%float) ].

(** A service that answers every request with a quiet result. *)
Definition net : Request -> Outcome :=
  fun _ => Response true (BodyJson (JObj quiet_fields)).

(** A URL has been typed, the load button has not been pressed. *)
Definition typed_not_loaded : State := setYoutubeUrl watch_url initial_state.

(** A result is stored, the input holds no URL. *)
Definition stored_result_bad_url : State :=
  setDetectResult (JObj triggered_fields)
    (setYoutubeUrl (str "not a url") initial_state).

(** A video is loaded and a result is stored. *)
Definition loaded_with_result : State :=
  setDetectResult (JObj triggered_fields)
    (setVideoId (Some XsOU8JnEpNM) (setYoutubeUrl watch_url initial_state)).

End Sample.

(** Sample runs of the page. *)
Module Runs.

Definition env : Env :=
  {| NEXT_PUBLIC_TRIO_API_URL := Some (str "https://trio.example/api/check-once");
     NEXT_PUBLIC_TRIO_API_KEY := Some (str "secret");
     NEXT_PUBLIC_TRIO_DETECT_PROMPT := None |}.

(** No endpoint is set. *)
Definition env_no_url : Env :=
  {| NEXT_PUBLIC_TRIO_API_URL := None;
     NEXT_PUBLIC_TRIO_API_KEY := Some (str "secret");
     NEXT_PUBLIC_TRIO_DETECT_PROMPT := None |}.

(** A URL is typed and loaded; the first request is in flight. *)
Definition load : list Event := [EvType Sample.watch_url; EvLoad].

(** The first request has come back with a triggered result. *)
Definition load_alert : list Event :=
  load ++ [EvSettle 0 (Response true (BodyJson (JObj Sample.triggered_fields)))].

Definition other_url : jsstring := str "https://youtu.be/dQw4w9WgXcQ".

(** A triggered result. *)
Definition triggered : Outcome :=
  Response true (BodyJson (JObj Sample.triggered_fields)).

(** The timer fires and its call comes back with a triggered result. *)
Definition cycle : list Event := [EvTick 1; EvSettle 0 triggered].

Fixpoint cycles (n : nat) : list Event :=
  match n with
  | O => []
  | S n' => cycles n' ++ cycle
  end.

(** The first alert and [n] more, each from a tick of the timer. *)
Definition alerts (n : nat) : list Event := load_alert ++ cycles n.

(** The sample video is loaded, its timer runs, no call is in flight. *)
Definition idle (pg : Page) : Prop :=
  timers pg = [{| timer_id := 1; timer_delay := 60 * 1000; timer_url := Sample.watch_url |}] /\
  inflight pg = [] /\
  youtubeUrl (ui pg) = Sample.watch_url /\
  videoId (ui pg) = Some Sample.XsOU8JnEpNM.

(** The endpoint is unset; a video is loaded, then the input is edited. *)
Definition edited_unconfigured : list Event :=
  [EvType Sample.watch_url; EvLoad; EvType (str "x")].

End Runs.

(* ================================================================== *)
(** ** Lists and strings *)

Lemma takeWhile_dropWhile (p : char -> bool) (s : jsstring) :
  takeWhile p s ++ dropWhile p s = s.
Proof.
  induction s as [|c s IH]; simpl; [reflexivity|].
  destruct (p c); simpl; [now rewrite IH | reflexivity].
Qed.

Lemma firstn_takeWhile (p : char -> bool) (s : jsstring) :
  firstn (length (takeWhile p s)) s = takeWhile p s.
Proof.
  induction s as [|c s IH]; simpl; [reflexivity|].
  destruct (p c); simpl; [now rewrite IH | reflexivity].
Qed.

Lemma skipn_takeWhile (p : char -> bool) (s : jsstring) :
  skipn (length (takeWhile p s)) s = dropWhile p s.
Proof.
  induction s as [|c s IH]; simpl; [reflexivity|].
  destruct (p c); simpl; [now rewrite IH | reflexivity].
Qed.

Lemma takeWhile_app_stop (p : char -> bool) (a b : jsstring) :
  forallb p a = true -> takeWhile p b = [] -> takeWhile p (a ++ b) = a.
Proof.
  induction a as [|c a IH]; simpl; intros Ha Hb; [exact Hb|].
  apply andb_true_iff in Ha as [Hc Ha]. rewrite Hc. f_equal. now apply IH.
Qed.

Lemma takeWhile_forallb (p : char -> bool) (s : jsstring) :
  forallb p (takeWhile p s) = true.
Proof.
  induction s as [|c s IH]; simpl; [reflexivity|].
  destruct (p c) eqn:E; simpl; [now rewrite E | reflexivity].
Qed.

Lemma takeWhile_idem_drop (p : char -> bool) (s : jsstring) :
  takeWhile p (dropWhile p s) = [].
Proof.
  induction s as [|c s IH]; simpl; [reflexivity|].
  destruct (p c) eqn:E; simpl; [exact IH | now rewrite E].
Qed.

Lemma find_app (A : Type) (f : A -> bool) (l1 l2 : list A) :
  find f (l1 ++ l2) = match find f l1 with Some x => Some x | None => find f l2 end.
Proof.
  induction l1 as [|x l1 IH]; simpl; [reflexivity|].
  destruct (f x); [reflexivity | exact IH].
Qed.

Lemma string_eqb_eq (a b : jsstring) : string_eqb a b = true <-> a = b.
Proof.
  revert b. induction a as [|x a IH]; intros [|y b]; simpl; split; intros H;
    try reflexivity; try discriminate.
  - apply andb_true_iff in H as [H1 H2]. apply N.eqb_eq in H1. apply IH in H2.
    now subst.
  - injection H as -> ->. rewrite N.eqb_refl. simpl. now apply IH.
Qed.

Lemma string_eqb_refl (a : jsstring) : string_eqb a a = true.
Proof. now apply string_eqb_eq. Qed.

(* ================================================================== *)
(** ** Numbers *)

Lemma js_add_exact (a b : Z) :
  (Z.abs (a + b) <= 2 ^ 53)%Z -> js_add a b = (a + b)%Z.
Proof.
  intros H. unfold js_add, double_round.
  apply Z.leb_le in H. now rewrite H.
Qed.

(** Below 2^53 the counter's [prev + 1] is exact. *)
Lemma js_add_one_exact (n : Z) :
  (0 <= n < 2 ^ 53)%Z -> js_add n 1 = (n + 1)%Z.
Proof. intros H. apply js_add_exact. lia. Qed.

(** At 2^53 it is not: 2^53 + 1 is no double, and the tie goes to 2^53. *)
Lemma js_add_one_top : js_add (2 ^ 53) 1 = (2 ^ 53)%Z.
Proof. vm_compute. reflexivity. Qed.

(** Rounding a positive integer gives a positive integer. *)
Lemma double_round_pos (x : Z) : (1 <= x)%Z -> (1 <= double_round x)%Z.
Proof.
  intros Hx. unfold double_round. rewrite (Z.abs_eq x) by lia.
  destruct (x <=? 2 ^ 53)%Z eqn:E; [exact Hx|].
  apply Z.leb_gt in E. rewrite (proj2 (Z.sgn_pos_iff x)) by lia. rewrite Z.mul_1_l.
  assert (Hlog : (53 <= Z.log2 x)%Z).
  { apply Z.log2_le_pow2; lia. }
  set (ulp := (2 ^ (Z.log2 x - 52))%Z).
  assert (Hulp : (0 < ulp)%Z) by (apply Z.pow_pos_nonneg; lia).
  assert (Hle : (ulp <= x)%Z).
  { transitivity (2 ^ Z.log2 x)%Z.
    - apply Z.pow_le_mono_r; lia.
    - apply Z.log2_spec. lia. }
  assert (Hq : (1 <= x / ulp)%Z).
  { apply Z.div_le_lower_bound; lia. }
  assert (Hq' : (1 <= if (x mod ulp <? ulp / 2)%Z then x / ulp
                      else if (ulp / 2 <? x mod ulp)%Z then x / ulp + 1
                           else if Z.even (x / ulp) then x / ulp else x / ulp + 1)%Z).
  { destruct (_ <? _)%Z; [exact Hq|]. destruct (_ <? _)%Z; [lia|].
    destruct (Z.even _); lia. }
  nia.
Qed.

(** The counter's [prev + 1] never gives less than 1 on a count that is
    not negative. *)
Lemma js_add_one_pos (n : Z) : (0 <= n)%Z -> (1 <= js_add n 1)%Z.
Proof. intros H. unfold js_add. apply double_round_pos. lia. Qed.

(** The counter's [prev + 1] on the counts the page can hold. *)
Lemma js_add_one_capped (n : Z) :
  (0 <= n <= 2 ^ 53)%Z ->
  js_add n 1 = (if n <? 2 ^ 53 then n + 1 else n)%Z.
Proof.
  intros H. destruct (Z.ltb_spec n (2 ^ 53)) as [Hlt|Hge].
  - apply js_add_one_exact. lia.
  - assert (n = 2 ^ 53)%Z by lia. subst n. apply js_add_one_top.
Qed.

(* ================================================================== *)
(** ** The matcher on the constructs of the pattern *)

Lemma advance_0 (st : mstate) : advance 0 st = st.
Proof. destruct st as [i s cs]. unfold advance. simpl. now rewrite Nat.add_0_r. Qed.

Lemma advance_advance (a b : nat) (st : mstate) :
  advance b (advance a st) = advance (a + b) st.
Proof.
  destruct st as [i s cs]. unfold advance. simpl.
  rewrite skipn_skipn, Nat.add_assoc. f_equal. f_equal. apply Nat.add_comm.
Qed.

Lemma star_loop_one (p : char -> bool) (fuel : nat) :
  forall st k, length (rest st) <= fuel ->
    star_loop (one p) fuel st k = greedy p (pos st) (rest st) (caps st) k.
Proof.
  induction fuel as [|fuel IH]; intros [i s cs] k Hlen; simpl in *.
  - destruct s; simpl in *; [reflexivity | lia].
  - unfold one. simpl. destruct s as [|c s]; simpl; [reflexivity|].
    destruct (p c); [|reflexivity].
    unfold advance. simpl.
    assert (Hlt : Nat.ltb (length s) (S (length s)) = true) by (apply Nat.ltb_lt; lia).
    rewrite Hlt. rewrite IH by (simpl in *; lia). reflexivity.
Qed.

Lemma greedy_total (p : char -> bool) (k : cont) :
  (forall st, k st <> None) ->
  forall s i cs,
    greedy p i s cs k =
    k (MState (i + length (takeWhile p s)) (dropWhile p s) cs).
Proof.
  intros Hk. induction s as [|c s IH]; intros i cs; simpl.
  - now rewrite Nat.add_0_r.
  - destruct (p c); simpl.
    + rewrite IH. rewrite <- Nat.add_assoc. simpl.
      destruct (k _) eqn:E; [reflexivity | now apply Hk in E].
    + now rewrite Nat.add_0_r.
Qed.

Lemma pat_match_app (a b : pat) (s : jsstring) :
  pat_match (a ++ b) s = pat_match a s && pat_match b (skipn (length a) s).
Proof.
  revert s. induction a as [|f a IH]; intros s; simpl; [reflexivity|].
  destruct s as [|c s]; simpl.
  - destruct b; reflexivity.
  - rewrite IH. now rewrite andb_assoc.
Qed.

Lemma m_pat (r : regex) :
  forall p, pat_of r = Some p ->
  forall st k,
    m r st k = if pat_match p (rest st) then k (advance (length p) st) else None.
Proof.
  induction r as [| |q|r1 IH1 r2 IH2|r1 _ r2 _|r _|n r _]; intros p Hp st k;
    simpl in Hp; try discriminate.
  - injection Hp as <-. simpl. now rewrite advance_0.
  - injection Hp as <-. simpl. unfold one.
    destruct (rest st) as [|c s]; [reflexivity|]. now rewrite andb_true_r.
  - destruct (pat_of r1) as [a|]; [|discriminate].
    destruct (pat_of r2) as [b|]; [|discriminate].
    injection Hp as <-. simpl.
    rewrite (IH1 a eq_refl). rewrite pat_match_app.
    destruct (pat_match a (rest st)); simpl; [|reflexivity].
    rewrite (IH2 b eq_refl). simpl.
    destruct (pat_match b _); [|reflexivity].
    now rewrite advance_advance, length_app.
Qed.

Lemma m_Group (n : nat) (r : regex) (st : mstate) (k : cont) :
  m (Group n r) st k =
  m r st (fun st' => k (set_cap n (firstn (pos st' - pos st) (rest st)) st')).
Proof. reflexivity. Qed.

Lemma tries_pat (k : cont) (r : regex) (p : pat) :
  pat_of r = Some p -> tries k r [p].
Proof.
  intros Hp st. rewrite (m_pat r p Hp). simpl.
  destruct (pat_match p (rest st)); reflexivity.
Qed.

Lemma tries_alt (k : cont) (r1 r2 : regex) (l : list pat) (p : pat) :
  (forall st, k st <> None) ->
  tries k r1 l -> pat_of r2 = Some p -> tries k (Alt r1 r2) (l ++ [p]).
Proof.
  intros Hk H1 Hp st. simpl. rewrite (H1 st), (m_pat r2 p Hp).
  rewrite find_app. destruct (find _ l) as [q|]; simpl.
  - destruct (k _) eqn:E; [reflexivity | now apply Hk in E].
  - destruct (pat_match p (rest st)); reflexivity.
Qed.

Lemma k_tail_eq (st : mstate) :
  k_tail st =
  Some (MState (pos st + line_length (rest st)) (dropWhile any_char (rest st)) (caps st)).
Proof.
  unfold k_tail. simpl. change (one _) with (one any_char).
  rewrite star_loop_one by lia.
  now rewrite greedy_total by discriminate.
Qed.

Lemma k_tail_some (st : mstate) : k_tail st <> None.
Proof. rewrite k_tail_eq. discriminate. Qed.

Lemma k_group2_eq (st : mstate) :
  exists i s,
    k_group2 st = Some (MState i s ((2, token (rest st)) :: caps st)).
Proof.
  unfold k_group2. simpl. change (one _) with (one token_char).
  rewrite star_loop_one by lia.
  rewrite greedy_total.
  - rewrite k_tail_eq. simpl. eexists _, _. f_equal. f_equal. f_equal. f_equal.
    replace (pos st + length (takeWhile token_char (rest st)) - pos st)
      with (length (takeWhile token_char (rest st))) by lia.
    apply firstn_takeWhile.
  - intros st'. apply k_tail_some.
Qed.

Lemma k_group2_some (st : mstate) : k_group2 st <> None.
Proof. destruct (k_group2_eq st) as (i & s & ->). discriminate. Qed.

Lemma group1_tries (k : cont) :
  (forall st, k st <> None) ->
  tries k (Lit "youtu" >> Dot >> Lit "be/" || Lit "v/" || Lit "u/" >> Word >> Lit "/"
           || Lit "embed/" || Lit "watch?v=" || Lit "&v=")%re markers.
Proof.
  intros Hk.
  change markers with
    ([lit "youtu" ++ [any_char] ++ lit "be/"] ++ [lit "v/"]
     ++ [lit "u/" ++ [is_word_char] ++ lit "/"] ++ [lit "embed/"]
     ++ [lit "watch?v="] ++ [lit "&v="]).
  rewrite !app_assoc.
  repeat (apply tries_alt; [exact Hk | | reflexivity]).
  apply tries_pat. reflexivity.
Qed.

Lemma k_group1_eq (st : mstate) :
  option_map (cap 2) (k_group1 st) =
  option_map (fun r => Some (token r)) (after_marker (rest st)).
Proof.
  unfold k_group1, group1. rewrite m_Group.
  rewrite group1_tries by (intros st'; apply k_group2_some).
  unfold after_marker, marker_at_head.
  destruct (find _ markers) as [p|]; simpl; [|reflexivity].
  match goal with |- context [k_group2 ?x] => destruct (k_group2_eq x) as (i & s & ->) end.
  reflexivity.
Qed.

Lemma first_run_eq (s : jsstring) :
  forall i,
    option_map (cap 2) (greedy any_char i s [] k_group1) =
    option_map (fun r => Some (token r)) (last_marker s).
Proof.
  induction s as [|c s IH]; intros i.
  - simpl greedy. rewrite k_group1_eq. reflexivity.
  - simpl greedy. cbn [last_marker]. unfold any_char at 1.
    destruct (is_line_terminator c); simpl.
    + rewrite k_group1_eq. reflexivity.
    + specialize (IH (i + 1)).
      destruct (greedy any_char (i + 1) s [] k_group1) as [r|];
        destruct (last_marker s) as [t|]; simpl in IH; try discriminate.
      * exact IH.
      * rewrite k_group1_eq. reflexivity.
Qed.

Lemma m_regExp_eq (st : mstate) :
  m regExp st Some =
  if Nat.eqb (pos st) 0
  then greedy any_char (pos st) (rest st) (caps st) k_group1
  else None.
Proof.
  change (m regExp st Some)
    with (if Nat.eqb (pos st) 0
          then star_loop (one any_char) (length (rest st)) st k_group1 else None).
  destruct (Nat.eqb (pos st) 0); [|reflexivity].
  now rewrite star_loop_one by lia.
Qed.

Lemma exec_from_eq (r : regex) (i : nat) (s : jsstring) :
  exec_from r i s =
  match m r (MState i s []) Some with
  | Some st => Some st
  | None => match s with [] => None | _ :: s' => exec_from r (S i) s' end
  end.
Proof. destruct s; reflexivity. Qed.

Lemma exec_from_later (s : jsstring) :
  forall i, i <> 0 -> exec_from regExp i s = None.
Proof.
  induction s as [|c s IH]; intros i Hi; rewrite exec_from_eq, m_regExp_eq; simpl pos;
    destruct (Nat.eqb_spec i 0); try contradiction; try reflexivity.
  apply IH. discriminate.
Qed.

(** The second capture of the pattern is the token after the last marker
    of the first line. *)
Lemma exec_regExp (s : jsstring) :
  option_map (cap 2) (exec regExp s) =
  option_map (fun r => Some (token r)) (last_marker s).
Proof.
  unfold exec. rewrite exec_from_eq, m_regExp_eq. simpl pos. simpl rest. simpl caps.
  simpl Nat.eqb. cbv iota.
  pose proof (first_run_eq s 0) as H.
  destruct (greedy any_char 0 s [] k_group1) as [r|]; [exact H|].
  destruct s as [|c s]; [exact H|].
  rewrite exec_from_later by discriminate. exact H.
Qed.

Lemma last_marker_nil : last_marker [] = None.
Proof. reflexivity. Qed.

(** [getYoutubeVideoId] without the matcher. *)
Lemma getYoutubeVideoId_eq (u : jsstring) :
  getYoutubeVideoId u =
  match last_marker u with
  | Some r => if Nat.eqb (length (token r)) 11 then Some (token r) else None
  | None => None
  end.
Proof.
  unfold getYoutubeVideoId. pose proof (exec_regExp u) as H.
  destruct u as [|c u]; [reflexivity|]. simpl negb. cbv iota.
  destruct (exec regExp (c :: u)) as [mt|]; destruct (last_marker (c :: u)) as [r|];
    simpl in H; try discriminate; [|reflexivity].
  injection H as ->. reflexivity.
Qed.

(* ================================================================== *)
(** ** Markers *)

Lemma pat_match_length (p : pat) :
  forall s, pat_match p s = true -> length p <= length s.
Proof.
  induction p as [|f p IH]; intros [|c s] H; simpl in *; try lia; try discriminate.
  apply andb_true_iff in H as [_ H]. apply IH in H. lia.
Qed.

Lemma pat_match_firstn (p : pat) :
  forall s, pat_match p s = true -> pat_match p (firstn (length p) s) = true.
Proof.
  induction p as [|f p IH]; intros [|c s] H; simpl in *; try reflexivity; try discriminate.
  apply andb_true_iff in H as [Hc H]. rewrite Hc. simpl. now apply IH.
Qed.

Lemma pat_match_prefix (p : pat) :
  forall a b, pat_match p a = true -> pat_match p (a ++ b) = true.
Proof.
  induction p as [|f p IH]; intros [|c a] b H; simpl in *; try reflexivity; try discriminate.
  apply andb_true_iff in H as [Hc H]. rewrite Hc. simpl. now apply IH.
Qed.

Lemma pat_match_of_firstn (p : pat) (n : nat) (s : jsstring) :
  pat_match p (firstn n s) = true -> pat_match p s = true.
Proof.
  intros H. rewrite <- (firstn_skipn n s). now apply pat_match_prefix.
Qed.

Lemma find_marker_firstn (s : jsstring) (l : list pat) :
  forall p, find (fun q => pat_match q s) l = Some p ->
            find (fun q => pat_match q (firstn (length p) s)) l = Some p.
Proof.
  induction l as [|q l IH]; intros p H; simpl in *; [discriminate|].
  destruct (pat_match q s) eqn:Eq.
  - injection H as <-. now rewrite pat_match_firstn.
  - destruct (pat_match q (firstn (length p) s)) eqn:Eq'.
    + apply pat_match_of_firstn in Eq'. congruence.
    + now apply IH.
Qed.

Lemma marker_at_head_bound (s : jsstring) (n : nat) :
  marker_at_head s = Some n -> n <= length s.
Proof.
  unfold marker_at_head. destruct (find _ markers) as [p|] eqn:E; simpl; [|discriminate].
  intros H. injection H as <-. apply find_some in E as [_ E].
  now apply pat_match_length.
Qed.

(** The marker that starts a string is a marker on its own. *)
Lemma marker_at_head_firstn (s : jsstring) (n : nat) :
  marker_at_head s = Some n -> is_marker (firstn n s).
Proof.
  intros H. pose proof (marker_at_head_bound s n H) as Hn.
  unfold is_marker. rewrite length_firstn, Nat.min_l by exact Hn.
  unfold marker_at_head in *.
  destruct (find _ markers) as [p|] eqn:E; simpl in H; [|discriminate].
  injection H as <-. now rewrite (find_marker_firstn s markers p E).
Qed.

Lemma find_head_exclusive (l : list (char * pat)) :
  NoDup (map fst l) ->
  forall s a p,
    In (a, p) l -> pat_match (N.eqb a :: p) s = true ->
    find (fun q => pat_match q s) (map (fun ap => N.eqb (fst ap) :: snd ap) l)
    = Some (N.eqb a :: p).
Proof.
  induction l as [|[b q] l IH]; intros Hnd s a p Hin Hm; [contradiction|].
  inversion Hnd as [|? ? Hb Hnd']; subst. cbn [map find fst snd].
  destruct Hin as [E|Hin].
  - injection E as -> ->. now rewrite Hm.
  - destruct s as [|c s]; [discriminate|].
    assert (Hbc : (b =? c)%N = false).
    { cbn [pat_match] in Hm. apply andb_true_iff in Hm as [Hac _].
      apply N.eqb_eq in Hac. subst c.
      apply N.eqb_neq. intros ->. apply Hb. cbn [map fst].
      change a with (fst (a, p)). now apply in_map. }
    cbn [pat_match]. rewrite Hbc. cbn [andb]. now apply IH.
Qed.

(** No two markers start the same string: their first characters differ. *)
Lemma markers_exclusive (s : jsstring) (p : pat) :
  In p markers -> pat_match p s = true ->
  find (fun q => pat_match q s) markers = Some p.
Proof.
  pose (l := [ (121%N, lit "outu" ++ [any_char] ++ lit "be/"); (118%N, lit "/");
               (117%N, lit "/" ++ [is_word_char] ++ lit "/"); (101%N, lit "mbed/");
               (119%N, lit "atch?v="); (38%N, lit "v=") ]).
  change markers with (map (fun ap : char * pat => N.eqb (fst ap) :: snd ap) l).
  intros Hin Hm. apply in_map_iff in Hin as ([a q] & <- & Hin).
  apply find_head_exclusive; try assumption.
  simpl. repeat constructor; simpl; intuition discriminate.
Qed.

Lemma marker_at_head_app (mk r : jsstring) :
  is_marker mk -> marker_at_head (mk ++ r) = Some (length mk).
Proof.
  unfold is_marker, marker_at_head.
  destruct (find _ markers) as [p|] eqn:E; cbn [option_map]; [|discriminate].
  intros H. apply find_some in E as [Hin Hp].
  assert (E : find (fun q => pat_match q (mk ++ r)) markers = Some p).
  { apply markers_exclusive; [exact Hin | now apply pat_match_prefix]. }
  rewrite E. exact H.
Qed.

Lemma after_marker_decomp (s r : jsstring) :
  after_marker s = Some r -> exists mk, s = mk ++ r /\ is_marker mk.
Proof.
  unfold after_marker. destruct (marker_at_head s) as [n|] eqn:E; [|discriminate].
  intros H. injection H as <-. exists (firstn n s). split.
  - symmetry. apply firstn_skipn.
  - now apply marker_at_head_firstn.
Qed.

Lemma last_marker_decomp (s : jsstring) :
  forall r, last_marker s = Some r ->
            exists p mk, s = p ++ mk ++ r /\ is_marker mk /\ forallb any_char p = true.
Proof.
  induction s as [|c s IH]; intros r H.
  - apply after_marker_decomp in H as (mk & -> & Hmk). now exists [], mk.
  - cbn [last_marker] in H. destruct (is_line_terminator c) eqn:Ec.
    + apply after_marker_decomp in H as (mk & -> & Hmk). now exists [], mk.
    + destruct (last_marker s) as [t|] eqn:Et.
      * injection H as <-. destruct (IH t eq_refl) as (p & mk & -> & Hmk & Hp).
        exists (c :: p), mk. repeat split; try assumption.
        simpl. unfold any_char at 1. now rewrite Ec.
      * apply after_marker_decomp in H as (mk & -> & Hmk). now exists [], mk.
Qed.

Lemma line_length_cons (c : char) (s : jsstring) :
  line_length (c :: s) = if any_char c then S (line_length s) else 0.
Proof. unfold line_length. simpl. now destruct (any_char c). Qed.

Lemma line_length_app (p r : jsstring) :
  forallb any_char p = true -> length p <= line_length (p ++ r).
Proof.
  induction p as [|c p IH]; simpl; intros H; [lia|].
  apply andb_true_iff in H as [Hc H]. rewrite line_length_cons, Hc.
  apply IH in H. lia.
Qed.

Lemma skipn_length_app (A : Type) (a b : list A) : skipn (length a) (a ++ b) = b.
Proof. induction a as [|x a IH]; simpl; [reflexivity | exact IH]. Qed.

Lemma last_marker_none (s : jsstring) :
  (forall j, j <= line_length s -> marker_at_head (skipn j s) = None) ->
  last_marker s = None.
Proof.
  induction s as [|c s IH]; intros H;
    pose proof (H 0 (Nat.le_0_l _)) as H0; cbn [skipn] in H0.
  - cbn [last_marker]. unfold after_marker. now rewrite H0.
  - cbn [last_marker]. unfold after_marker at 1 2. rewrite H0.
    destruct (is_line_terminator c) eqn:Ec; [reflexivity|].
    rewrite IH; [reflexivity|]. intros j Hj. apply (H (S j)).
    rewrite line_length_cons. unfold any_char at 1. rewrite Ec. simpl. lia.
Qed.

(** The pattern commits to the last marker that starts on the first
    line. *)
Lemma last_marker_at (s : jsstring) :
  forall j n,
    marker_at_head (skipn j s) = Some n ->
    j <= line_length s ->
    (forall j', j < j' -> j' <= line_length s -> marker_at_head (skipn j' s) = None) ->
    last_marker s = Some (skipn (j + n) s).
Proof.
  induction s as [|c s IH]; intros j n Hm Hj Hlater.
  - assert (j = 0) by (unfold line_length in Hj; simpl in Hj; lia). subst j.
    cbn [last_marker]. unfold after_marker. cbn [skipn] in Hm. now rewrite Hm.
  - cbn [last_marker]. rewrite line_length_cons in Hj.
    assert (Hlater' : forall j', j < j' ->
              j' <= (if any_char c then S (line_length s) else 0) ->
              marker_at_head (skipn j' (c :: s)) = None).
    { intros j' H1 H2. apply Hlater; [exact H1 | now rewrite line_length_cons]. }
    clear Hlater. unfold any_char in Hj, Hlater'.
    destruct (is_line_terminator c) eqn:Ec; cbn [negb] in Hj, Hlater'.
    + assert (j = 0) by lia. subst j.
      unfold after_marker. cbn [skipn] in Hm. now rewrite Hm.
    + destruct j as [|j].
      * rewrite last_marker_none.
        -- unfold after_marker. cbn [skipn] in Hm. now rewrite Hm.
        -- intros j Hj'. apply (Hlater' (S j)); lia.
      * rewrite (IH j n); [reflexivity | exact Hm | lia |].
        intros j' H1 H2. apply (Hlater' (S j')); lia.
Qed.

Lemma later_marker_free_spec (n : nat) (u : jsstring) :
  later_marker_free n u = true ->
  forall j, n < j -> j <= line_length u -> marker_at_head (skipn j u) = None.
Proof.
  unfold later_marker_free. intros H j H1 H2.
  rewrite forallb_forall in H. specialize (H j).
  unfold no_marker_at in H. destruct (marker_at_head (skipn j u)); [|reflexivity].
  assert (false = true); [|discriminate]. apply H. apply in_seq. lia.
Qed.

(** The video id of a string in which the last marker of the first line
    is followed by an 11-character token. *)
Lemma getYoutubeVideoId_shape (p mk tok tail : jsstring) :
  forallb any_char p = true ->
  is_marker mk ->
  length tok = 11 ->
  forallb token_char tok = true ->
  token tail = [] ->
  later_marker_free (length p) (p ++ mk ++ tok ++ tail) = true ->
  getYoutubeVideoId (p ++ mk ++ tok ++ tail) = Some tok.
Proof.
  intros Hp Hmk Hlen Htok Htail Hfree.
  rewrite getYoutubeVideoId_eq.
  rewrite (@last_marker_at (p ++ mk ++ tok ++ tail) (length p) (length mk)).
  - rewrite <- length_app, app_assoc, skipn_length_app.
    unfold token. rewrite takeWhile_app_stop by assumption.
    now rewrite Hlen.
  - rewrite skipn_length_app. now apply marker_at_head_app.
  - now apply line_length_app.
  - now apply later_marker_free_spec.
Qed.

(** A string with a video id has a known shape. *)
Lemma getYoutubeVideoId_known_shape (u tok : jsstring) :
  getYoutubeVideoId u = Some tok -> known_shape u.
Proof.
  rewrite getYoutubeVideoId_eq.
  destruct (last_marker u) as [r|] eqn:E; [|discriminate].
  destruct (Nat.eqb_spec (length (token r)) 11) as [Hlen|]; [|discriminate].
  intros H. injection H as <-.
  apply last_marker_decomp in E as (p & mk & -> & Hmk & _).
  exists p, mk, (token r), (dropWhile token_char r). repeat split.
  - unfold token. now rewrite takeWhile_dropWhile.
  - exact Hmk.
  - exact Hlen.
  - apply takeWhile_forallb.
  - apply takeWhile_idem_drop.
Qed.

(** A string without any marker has no known shape. *)
Lemma marker_free_not_known (u : jsstring) :
  marker_free u = true -> ~ known_shape u.
Proof.
  intros H (p & mk & tok & tail & -> & Hmk & _).
  unfold marker_free in H. rewrite forallb_forall in H.
  specialize (H (length p)). unfold no_marker_at in H.
  rewrite skipn_length_app, (marker_at_head_app mk _ Hmk) in H.
  assert (false = true); [|discriminate]. apply H. apply in_seq.
  rewrite length_app. lia.
Qed.

(* ================================================================== *)
(** ** [handleDetect] *)

Lemma handleDetect_finish_ok (eng : Engine) (result : json) (t : option json) (s : State) :
  get eng result (str "triggered") = Ok t ->
  handleDetect_finish eng (Response true (BodyJson result)) s =
  setDetectLoading false
    (if truthy_opt t
     then setActiveAlerts (fun prev => js_add prev 1)
            (setAiStatus alert (setDetectResult result s))
     else setDetectResult result s).
Proof.
  intros H. unfold handleDetect_finish, try_block. rewrite H.
  destruct (truthy_opt t); reflexivity.
Qed.

(** C1, amended.  When a detection call settles with an HTTP-ok response
    whose parsed result has [triggered = true], the monitoring status
    becomes alert and the active alert count, a JavaScript number, becomes
    [prev + 1]: on the counts the page can hold, 0 to 2^53, that is
    exactly one more than it was while it was below 2^53, and 2^53 again
    when it was 2^53.  With [triggered = false] the count and the status
    are as they were.  In both cases the parsed result is stored. *)
Theorem detect_ok_alerts (eng : Engine) (s : State)
        (fields : list (jsstring * json)) (b : bool) :
  own_property (str "triggered") fields = Some (JBool b) ->
  (b = true -> 0 <= activeAlerts s <= 2 ^ 53)%Z ->
  let s' := handleDetect_finish eng (Response true (BodyJson (JObj fields))) s in
  aiStatus s' = (if b then alert else aiStatus s) /\
  activeAlerts s'
  = (if b
     then if activeAlerts s <? 2 ^ 53 then activeAlerts s + 1 else activeAlerts s
     else activeAlerts s)%Z /\
  detectResult s' = JObj fields /\
  errorTip s' = errorTip s.
Proof.
  intros H Hb s'. subst s'.
  rewrite (handleDetect_finish_ok eng (JObj fields) (Some (JBool b)) s)
    by (simpl; now rewrite H).
  destruct b; cbn [truthy_opt truthy aiStatus activeAlerts detectResult errorTip
                   setDetectLoading setActiveAlerts setAiStatus setDetectResult].
  - split; [reflexivity|]. split; [|split; reflexivity].
    apply js_add_one_capped. now apply Hb.
  - split; [reflexivity|]. split; [reflexivity|]. split; reflexivity.
Qed.

Lemma detect_ok_alerts_witness :
  own_property (str "triggered") Sample.triggered_fields = Some (JBool true) /\
  (0 <= activeAlerts Sample.loaded_with_result <= 2 ^ 53)%Z /\
  let s' := handleDetect_finish Sample.eng
              (Response true (BodyJson (JObj Sample.triggered_fields)))
              Sample.loaded_with_result in
  aiStatus s' = alert /\
  activeAlerts s' = (activeAlerts Sample.loaded_with_result + 1)%Z /\
  detectResult s' = JObj Sample.triggered_fields /\
  errorTip s' = errorTip Sample.loaded_with_result.
Proof.
  assert (Hb : (0 <= activeAlerts Sample.loaded_with_result <= 2 ^ 53)%Z)
    by (change (2 ^ 53)%Z with 9007199254740992%Z; simpl; lia).
  split; [reflexivity|]. split; [exact Hb|].
  exact (detect_ok_alerts Sample.eng Sample.loaded_with_result
           Sample.triggered_fields true eq_refl (fun _ => Hb)).
Defined.

(** The same for one whole run of [handleDetect] whose guards pass. *)
Lemma handleDetect_ok (cfg : Config) (eng : Engine) (net : Request -> Outcome)
      (s : State) (req : Request) (fields : list (jsstring * json)) (b : bool) :
  snd (handleDetect_start cfg (youtubeUrl s) s) = Some req ->
  net req = Response true (BodyJson (JObj fields)) ->
  own_property (str "triggered") fields = Some (JBool b) ->
  (0 <= activeAlerts s < 2 ^ 53)%Z ->
  snd (handleDetect cfg eng net s) = [req] /\
  aiStatus (fst (handleDetect cfg eng net s)) = (if b then alert else aiStatus s) /\
  activeAlerts (fst (handleDetect cfg eng net s))
  = (if b then activeAlerts s + 1 else activeAlerts s)%Z /\
  detectResult (fst (handleDetect cfg eng net s)) = JObj fields.
Proof.
  intros Hstart Hnet Hb Hrange. unfold handleDetect.
  destruct (handleDetect_start cfg (youtubeUrl s) s) as [s1 r] eqn:E.
  simpl in Hstart. subst r. simpl. rewrite Hnet.
  rewrite (handleDetect_finish_ok eng (JObj fields) (Some (JBool b)) s1)
    by (simpl; now rewrite Hb).
  unfold handleDetect_start in E.
  destruct (_ || _) in E; [discriminate|].
  destruct (_ || _) in E; [discriminate|].
  injection E as <- _. destruct b; simpl; repeat split; try reflexivity.
  now apply js_add_one_exact.
Qed.

(** [handleDetect] taken alone does not read the stream reference: with
    a valid URL in the input and no stream reference it sends a request.
    No caller in the page runs it in such a state, see
    [fetch_needs_stream_reference]. *)
Lemma detect_calls_without_stream_reference :
  videoId Sample.typed_not_loaded = None /\
  snd (handleDetect Sample.cfg Sample.eng Sample.net Sample.typed_not_loaded)
  = [detect_request Sample.cfg Sample.watch_url].
Proof. split; vm_compute; reflexivity. Qed.

(** The guards of [handleDetect] taken alone.  The first reads the URL
    input, not the stream reference.  When the trimmed URL input yields
    no video id, or the endpoint is empty, or the credential is empty,
    [handleDetect] sends no request, sets the error message (the fixed
    configuration message when only the configuration is missing) and
    changes nothing else; in particular the active alert count stays. *)
Lemma detect_blocked (cfg : Config) (eng : Engine) (net : Request -> Outcome) (s : State) :
  truthy_id (getYoutubeVideoId (trim (youtubeUrl s))) = false
  \/ TRIO_API_URL cfg = [] \/ TRIO_API_KEY cfg = [] ->
  handleDetect cfg eng net s =
  (setErrorTip (if truthy_id (getYoutubeVideoId (trim (youtubeUrl s)))
                then msg_bad_config else msg_load_first) s, [])
  /\ snd (handleDetect cfg eng net s) = []
  /\ activeAlerts (fst (handleDetect cfg eng net s)) = activeAlerts s.
Proof.
  intros H.
  assert (E : handleDetect cfg eng net s =
              (setErrorTip (if truthy_id (getYoutubeVideoId (trim (youtubeUrl s)))
                            then msg_bad_config else msg_load_first) s, [])).
  { unfold handleDetect, handleDetect_start.
    destruct (truthy_id (getYoutubeVideoId (trim (youtubeUrl s)))) eqn:Eid.
    - assert (Et : truthy_string (trim (youtubeUrl s)) = true).
      { destruct (trim (youtubeUrl s)); [discriminate Eid | reflexivity]. }
      rewrite Et. simpl.
      destruct H as [H|[H|H]]; [discriminate| |]; rewrite H; simpl;
        [|rewrite orb_true_r]; reflexivity.
    - rewrite orb_true_r. reflexivity. }
  rewrite E. repeat split; reflexivity.
Qed.

Lemma detect_blocked_witness :
  TRIO_API_URL {| TRIO_API_URL := []; TRIO_API_KEY := str "secret";
                  DETECT_PROMPT := DETECT_PROMPT Sample.cfg |} = [] /\
  snd (handleDetect {| TRIO_API_URL := []; TRIO_API_KEY := str "secret";
                       DETECT_PROMPT := DETECT_PROMPT Sample.cfg |}
         Sample.eng Sample.net Sample.loaded_with_result) = [] /\
  activeAlerts (fst (handleDetect {| TRIO_API_URL := []; TRIO_API_KEY := str "secret";
                                     DETECT_PROMPT := DETECT_PROMPT Sample.cfg |}
                       Sample.eng Sample.net Sample.loaded_with_result))
  = activeAlerts Sample.loaded_with_result.
Proof.
  split; [reflexivity|].
  exact (proj2 (@detect_blocked
                  {| TRIO_API_URL := []; TRIO_API_KEY := str "secret";
                     DETECT_PROMPT := DETECT_PROMPT Sample.cfg |}
                  Sample.eng Sample.net Sample.loaded_with_result
                  (or_intror (or_introl eq_refl)))).
Defined.

(** The manual-detect button does nothing while no video is loaded. *)
Lemma detect_click_disabled (cfg : Config) (eng : Engine) (pg : Page) :
  videoId (ui pg) = None -> step cfg eng pg EvDetectClick = pg.
Proof.
  intros H. unfold step, handle, detect_disabled. rewrite H. simpl.
  unfold commit, deps_changed. rewrite H. simpl. now rewrite string_eqb_refl.
Qed.

(** A detection call that fails before a result is stored: the error
    message comes from the exception or from the payload, with the fixed
    fallback texts, and the stored result stays. *)
Lemma detect_failure_keeps_result (eng : Engine) (o : Outcome) (s : State) :
  match o with Response true (BodyJson _) => False | _ => True end ->
  detectResult (handleDetect_finish eng o s) = detectResult s /\
  activeAlerts (handleDetect_finish eng o s) = activeAlerts s /\
  aiStatus (handleDetect_finish eng o s) = aiStatus s /\
  exists e, snd (try_block eng o s) = Some e /\
            errorTip (handleDetect_finish eng o s)
            = match e with
              | ThrownError message => message
              | ThrownOther => msg_request_failed
              end.
Proof.
  intros H. unfold handleDetect_finish.
  destruct o as [e|[|] [e|result]]; try contradiction; simpl;
    try (repeat split; try reflexivity; exists e; split; reflexivity).
  destruct (get eng result _) as [error|e].
  - destruct (truthy_opt (get_opt error _)) eqn:Et.
    + destruct (get_opt error _) as [v|]; [|discriminate]. simpl.
      repeat split; try reflexivity. eexists; split; reflexivity.
    + simpl. repeat split; try reflexivity. eexists; split; reflexivity.
  - simpl. repeat split; try reflexivity. exists e; split; reflexivity.
Qed.

(** A not-ok response whose payload carries a non-empty [error.message]
    string shows that string; without one it shows the fixed text. *)
Lemma detect_not_ok_message (eng : Engine) (fields : list (jsstring * json)) (s : State) :
  errorTip (handleDetect_finish eng (Response false (BodyJson (JObj fields))) s)
  = match get_opt (own_property (str "error") fields) (str "message") with
    | Some (JStr (c :: message)) => c :: message
    | Some v => if truthy v then error_message_of eng v else msg_api_failed
    | None => msg_api_failed
    end.
Proof.
  unfold handleDetect_finish, try_block. cbn [get].
  destruct (get_opt _ _) as [v|]; [|reflexivity].
  destruct v as [| [|] | x | [|c t] | items | fs]; try reflexivity.
  cbn [truthy_opt truthy]. destruct (negb _ && negb _); reflexivity.
Qed.

(** C6, the failing case.  An HTTP-ok response whose body is the JSON
    value [null] is stored before [result.triggered] raises: the call ends
    in the [catch] clause with the engine's message, and whatever result
    was stored is replaced by [null]. *)
Theorem detect_ok_null_body (eng : Engine) (s : State) :
  detectResult (handleDetect_finish eng (Response true (BodyJson JNull)) s) = JNull /\
  errorTip (handleDetect_finish eng (Response true (BodyJson JNull)) s)
  = null_property_message eng (str "triggered") /\
  snd (try_block eng (Response true (BodyJson JNull)) s)
  = Some (ThrownError (null_property_message eng (str "triggered"))).
Proof. repeat split; reflexivity. Qed.

Lemma detect_ok_null_body_loses_result :
  detectResult Sample.loaded_with_result = JObj Sample.triggered_fields /\
  detectResult (handleDetect_finish Sample.eng (Response true (BodyJson JNull))
                  Sample.loaded_with_result) = JNull.
Proof. split; reflexivity. Qed.

(* ================================================================== *)
(** ** [loadVideo] *)

Lemma deps_changed_same (a b : State) :
  videoId a = videoId b -> youtubeUrl a = youtubeUrl b -> deps_changed a b = false.
Proof.
  intros Hv Hu. unfold deps_changed. rewrite Hv, Hu, string_eqb_refl.
  destruct (videoId b); simpl; [now rewrite string_eqb_refl | reflexivity].
Qed.

Lemma loadVideo_rejects (s : State) :
  truthy_id (getYoutubeVideoId (trim (youtubeUrl s))) = false ->
  loadVideo s = setVideoId None (setErrorTip msg_invalid_link
                                   (setDetectResult JNull (setErrorTip [] s))).
Proof. intros H. unfold loadVideo. now rewrite H. Qed.

Lemma poll_guard_no_video (cfg : Config) (s : State) :
  videoId s = None -> poll_guard cfg s = false.
Proof. intros H. unfold poll_guard. now rewrite H. Qed.

Lemma ui_effect_cleanup (pg : Page) : ui (effect_cleanup pg) = ui pg.
Proof. unfold effect_cleanup. now destruct (pollTimerRef pg). Qed.

(** The effect and its cleanup when the guard fails: the timer handle, if
    any, is cleared (twice), nothing else happens. *)
Lemma effect_no_poll (cfg : Config) (pg : Page) :
  poll_guard cfg (ui pg) = false ->
  effect_body cfg (effect_cleanup pg) =
  {| ui := ui pg; pollTimerRef := None;
     timers := match pollTimerRef pg with
               | Some id =>
                   filter (fun t => negb (Nat.eqb (timer_id t) id))
                     (filter (fun t => negb (Nat.eqb (timer_id t) id)) (timers pg))
               | None => timers pg
               end;
     next_timer := next_timer pg; inflight := inflight pg;
     trace := trace pg ++ match pollTimerRef pg with
                          | Some id => [ObsClearInterval id; ObsClearInterval id]
                          | None => []
                          end |}.
Proof.
  intros H. unfold effect_body. rewrite ui_effect_cleanup, H.
  unfold effect_cleanup. destruct pg as [s [id|] ts n fl tr];
    cbn [pollTimerRef clearInterval set_ref ui timers next_timer inflight trace].
  - unfold set_ref, clearInterval. cbn [ui pollTimerRef timers next_timer inflight trace].
    now rewrite <- app_assoc.
  - now rewrite app_nil_r.
Qed.

(** C3 as stated fails: [loadVideo] clears the stored result before it
    validates, so a rejected input loses it. *)
Lemma loadVideo_failure_clears_result :
  getYoutubeVideoId (trim (youtubeUrl Sample.stored_result_bad_url)) = None /\
  detectResult Sample.stored_result_bad_url = JObj Sample.triggered_fields /\
  detectResult (loadVideo Sample.stored_result_bad_url) = JNull.
Proof. repeat split; vm_compute; reflexivity. Qed.

(** C3, amended.  When the trimmed URL input yields no video id, the load
    action clears the stream reference, sets the invalid-link message,
    clears the stored detection result, sends no request, and leaves the
    monitoring status, the active alert count, the URL input and the
    calls in flight as they were. *)
Theorem loadVideo_failure (cfg : Config) (eng : Engine) (pg : Page) :
  truthy_id (getYoutubeVideoId (trim (youtubeUrl (ui pg)))) = false ->
  let pg' := step cfg eng pg EvLoad in
  videoId (ui pg') = None /\
  errorTip (ui pg') = msg_invalid_link /\
  detectResult (ui pg') = JNull /\
  aiStatus (ui pg') = aiStatus (ui pg) /\
  activeAlerts (ui pg') = activeAlerts (ui pg) /\
  youtubeUrl (ui pg') = youtubeUrl (ui pg) /\
  detectLoading (ui pg') = detectLoading (ui pg) /\
  inflight pg' = inflight pg /\
  (forall r, ~ In (ObsFetch r) (skipn (length (trace pg)) (trace pg'))).
Proof.
  intros H pg'. subst pg'. unfold step, handle, commit.
  destruct (deps_changed _ _).
  - rewrite effect_no_poll
      by (apply poll_guard_no_video; cbn [with_ui ui]; now rewrite (loadVideo_rejects _ H)).
    cbn [with_ui ui inflight trace pollTimerRef]. rewrite (loadVideo_rejects _ H).
    repeat split; try reflexivity.
    intros r. rewrite skipn_length_app.
    destruct (pollTimerRef pg); cbn; intuition discriminate.
  - cbn [with_ui ui inflight trace]. rewrite (loadVideo_rejects _ H).
    repeat split; try reflexivity.
    intros r. rewrite skipn_all. intros [].
Qed.

Lemma loadVideo_failure_witness :
  truthy_id (getYoutubeVideoId
               (trim (youtubeUrl (ui (with_ui (fun _ => Sample.stored_result_bad_url)
                                        (mounted Sample.cfg)))))) = false /\
  videoId (ui (step Sample.cfg Sample.eng
                 (with_ui (fun _ => Sample.stored_result_bad_url) (mounted Sample.cfg))
                 EvLoad)) = None.
Proof.
  split; [vm_compute; reflexivity|].
  refine (proj1 (@loadVideo_failure Sample.cfg Sample.eng
                   (with_ui (fun _ => Sample.stored_result_bad_url) (mounted Sample.cfg))
                   _)).
  vm_compute; reflexivity.
Defined.

(** C4.  A trimmed input without a known video-URL shape (no marker
    followed by an 11-character token) is rejected: the stream reference is
    absent afterwards and the invalid-link message is set. *)
Theorem loadVideo_rejects_unknown_shape (s : State) :
  ~ known_shape (trim (youtubeUrl s)) ->
  videoId (loadVideo s) = None /\ errorTip (loadVideo s) = msg_invalid_link.
Proof.
  intros H.
  assert (E : getYoutubeVideoId (trim (youtubeUrl s)) = None).
  { destruct (getYoutubeVideoId (trim (youtubeUrl s))) as [tok|] eqn:E; [|reflexivity].
    exfalso. apply H. now apply getYoutubeVideoId_known_shape with tok. }
  rewrite loadVideo_rejects by now rewrite E. split; reflexivity.
Qed.

Lemma loadVideo_rejects_unknown_shape_witness :
  ~ known_shape (trim (youtubeUrl Sample.stored_result_bad_url)) /\
  videoId (loadVideo Sample.stored_result_bad_url) = None /\
  errorTip (loadVideo Sample.stored_result_bad_url) = msg_invalid_link.
Proof.
  assert (H : ~ known_shape (trim (youtubeUrl Sample.stored_result_bad_url))).
  { apply marker_free_not_known. vm_compute. reflexivity. }
  split; [exact H|].
  exact (@loadVideo_rejects_unknown_shape Sample.stored_result_bad_url H).
Defined.

(** The empty input is rejected too. *)
Lemma loadVideo_rejects_empty :
  ~ known_shape (trim []) /\
  videoId (loadVideo (setVideoId (Some Sample.XsOU8JnEpNM) initial_state)) = None.
Proof.
  split; [apply marker_free_not_known|]; vm_compute; reflexivity.
Qed.

(** C5 as stated fails: a watch URL with the 11-character token
    [XsOU8JnEpNM] after the marker [watch?v=] is rejected when a later
    parameter happens to contain the marker [v/]; the pattern commits to
    the last marker and finds the 4-character [null] after it. *)
Lemma loadVideo_rejects_known_shape :
  known_shape (trim Sample.ref_url) /\
  getYoutubeVideoId (trim Sample.ref_url) = None /\
  videoId (loadVideo (setYoutubeUrl Sample.ref_url initial_state)) = None.
Proof.
  split; [|split; vm_compute; reflexivity].
  exists (str "https://www.youtube.com/"), (str "watch?v="), Sample.XsOU8JnEpNM,
         (str "&ref=dev/null").
  repeat split; vm_compute; reflexivity.
Qed.

(** C5, amended.  When the trimmed input is [p ++ mk ++ tok ++ tail] with
    no line terminator in [p], [mk] a marker, [tok] 11 characters other
    than [#], [&], [?], [tail] empty or starting with one of these, and no
    marker starting later on the first line, the load action sets the
    stream reference to exactly [tok] and clears the error message and the
    stored result. *)
Theorem loadVideo_accepts (s : State) (p mk tok tail : jsstring) :
  trim (youtubeUrl s) = p ++ mk ++ tok ++ tail ->
  forallb any_char p = true ->
  is_marker mk ->
  length tok = 11 ->
  forallb token_char tok = true ->
  token tail = [] ->
  later_marker_free (length p) (trim (youtubeUrl s)) = true ->
  videoId (loadVideo s) = Some tok /\
  errorTip (loadVideo s) = [] /\
  detectResult (loadVideo s) = JNull.
Proof.
  intros Hu Hp Hmk Hlen Htok Htail Hfree. unfold loadVideo.
  rewrite Hu in *. rewrite (getYoutubeVideoId_shape p mk tok tail) by assumption.
  destruct tok as [|c tok]; [discriminate Hlen|].
  repeat split; reflexivity.
Qed.

Lemma loadVideo_accepts_witness :
  videoId (loadVideo Sample.typed_not_loaded) = Some Sample.XsOU8JnEpNM /\
  errorTip (loadVideo Sample.typed_not_loaded) = [] /\
  detectResult (loadVideo Sample.typed_not_loaded) = JNull.
Proof.
  apply (@loadVideo_accepts Sample.typed_not_loaded
           (str "https://www.youtube.com/") (str "watch?v=") Sample.XsOU8JnEpNM []);
    vm_compute; reflexivity.
Defined.

(* ================================================================== *)
(** ** [triggerMockAlert] and [resetStatus] *)

(** C7.  The simulate-alert action sets the status to alert and the count
    to 1 from every state; the reset action sets the status to running,
    the count to 0 and clears the stored result; one after the other they
    leave status running, count 0 and no stored result.  Neither sends a
    request nor touches the timer. *)
Theorem simulate_then_reset (cfg : Config) (eng : Engine) (pg : Page) :
  (aiStatus (triggerMockAlert (ui pg)) = alert /\
   activeAlerts (triggerMockAlert (ui pg)) = 1%Z) /\
  (aiStatus (resetStatus (ui pg)) = running /\
   activeAlerts (resetStatus (ui pg)) = 0%Z /\
   detectResult (resetStatus (ui pg)) = JNull) /\
  (aiStatus (resetStatus (triggerMockAlert (ui pg))) = running /\
   activeAlerts (resetStatus (triggerMockAlert (ui pg))) = 0%Z /\
   detectResult (resetStatus (triggerMockAlert (ui pg))) = JNull) /\
  step cfg eng pg EvSimulate = with_ui triggerMockAlert pg /\
  step cfg eng pg EvReset = with_ui resetStatus pg /\
  inflight (step cfg eng (step cfg eng pg EvSimulate) EvReset) = inflight pg /\
  trace (step cfg eng (step cfg eng pg EvSimulate) EvReset) = trace pg /\
  ui (step cfg eng (step cfg eng pg EvSimulate) EvReset)
  = resetStatus (triggerMockAlert (ui pg)).
Proof.
  assert (H1 : step cfg eng pg EvSimulate = with_ui triggerMockAlert pg).
  { unfold step, handle, commit. now rewrite deps_changed_same. }
  assert (H2 : forall q, step cfg eng q EvReset = with_ui resetStatus q).
  { intros q. unfold step, handle, commit. now rewrite deps_changed_same. }
  rewrite H1, !H2. repeat split; reflexivity.
Qed.

(* ================================================================== *)
(** ** The page: what every run preserves *)

Lemma run_invariant (cfg : Config) (eng : Engine) (P : Page -> Prop) :
  P (mounted cfg) ->
  (forall pg e, P pg -> P (step cfg eng pg e)) ->
  forall evs, P (run cfg eng evs).
Proof.
  intros H0 Hstep evs. unfold run. generalize (mounted cfg) H0.
  induction evs as [|e evs IH]; intros pg Hpg; simpl; [exact Hpg|].
  apply IH. now apply Hstep.
Qed.

Lemma run_snoc (cfg : Config) (eng : Engine) (evs : list Event) (e : Event) :
  run cfg eng (evs ++ [e]) = step cfg eng (run cfg eng evs) e.
Proof. unfold run. now rewrite fold_left_app. Qed.

Lemma handleDetect_start_frame (cfg : Config) (url : jsstring) (s : State) :
  let s' := fst (handleDetect_start cfg url s) in
  aiStatus s' = aiStatus s /\ activeAlerts s' = activeAlerts s /\
  youtubeUrl s' = youtubeUrl s /\ videoId s' = videoId s /\
  detectResult s' = detectResult s.
Proof.
  unfold handleDetect_start.
  destruct (_ || _); [repeat split|].
  destruct (_ || _); repeat split.
Qed.

Lemma handle_frame (cfg : Config) (eng : Engine) (e : Event) (pg : Page) :
  pollTimerRef (handle cfg eng e pg) = pollTimerRef pg /\
  timers (handle cfg eng e pg) = timers pg /\
  next_timer (handle cfg eng e pg) = next_timer pg.
Proof.
  destruct e as [text| | | | |id|n o]; simpl; try (repeat split; reflexivity).
  - destruct (detect_disabled (ui pg)); [repeat split; reflexivity|].
    unfold call_handleDetect. destruct (handleDetect_start _ _ _). repeat split; reflexivity.
  - destruct (find _ _); [|repeat split; reflexivity].
    unfold call_handleDetect. destruct (handleDetect_start _ _ _). repeat split; reflexivity.
  - destruct (nth_error _ _); repeat split; reflexivity.
Qed.

Lemma call_handleDetect_frame (cfg : Config) (url : jsstring) (pg : Page) :
  ui (call_handleDetect cfg url pg) = fst (handleDetect_start cfg url (ui pg)) /\
  pollTimerRef (call_handleDetect cfg url pg) = pollTimerRef pg /\
  timers (call_handleDetect cfg url pg) = timers pg /\
  next_timer (call_handleDetect cfg url pg) = next_timer pg /\
  trace (call_handleDetect cfg url pg)
  = trace pg ++ ObsDetect :: match snd (handleDetect_start cfg url (ui pg)) with
                             | Some r => [ObsFetch r]
                             | None => []
                             end.
Proof.
  unfold call_handleDetect. destruct (handleDetect_start _ _ _). repeat split; reflexivity.
Qed.

Lemma opt_string_eqb_eq (a b : option jsstring) : opt_string_eqb a b = true -> a = b.
Proof.
  destruct a as [x|], b as [y|]; simpl; intros H; try discriminate; [|reflexivity].
  apply string_eqb_eq in H. now subst.
Qed.

Lemma deps_unchanged (a b : State) :
  deps_changed a b = false -> videoId a = videoId b /\ youtubeUrl a = youtubeUrl b.
Proof.
  unfold deps_changed. intros H. apply orb_false_iff in H as [H1 H2].
  apply negb_false_iff in H1, H2. split.
  - now apply opt_string_eqb_eq.
  - now apply string_eqb_eq.
Qed.

Lemma poll_guard_ext (cfg : Config) (a b : State) :
  videoId a = videoId b -> youtubeUrl a = youtubeUrl b ->
  poll_guard cfg a = poll_guard cfg b.
Proof. intros Hv Hu. unfold poll_guard. now rewrite Hv, Hu. Qed.

(** Under [poll_timer], the cleanup leaves no timer running. *)
Lemma cleanup_clears (cfg : Config) (pg pg1 : Page) :
  poll_timer cfg pg ->
  pollTimerRef pg1 = pollTimerRef pg -> timers pg1 = timers pg ->
  timers (effect_cleanup pg1) = [] /\
  trace (effect_cleanup pg1)
  = trace pg1 ++ match pollTimerRef pg1 with
                 | Some id => [ObsClearInterval id]
                 | None => []
                 end.
Proof.
  unfold poll_timer, effect_cleanup. intros H Hr Ht. rewrite Hr.
  destruct (poll_guard cfg (ui pg)).
  - destruct H as (id & -> & Hts). simpl. rewrite Ht, Hts. simpl.
    now rewrite Nat.eqb_refl.
  - destruct H as (-> & Hts). rewrite Ht, Hts. now rewrite app_nil_r.
Qed.

(** The effect on a page without running timers, when the guard holds:
    [handleDetect] is called at once, then one 60-second timer starts. *)
Lemma effect_polls (cfg : Config) (pg : Page) :
  poll_guard cfg (ui pg) = true ->
  timers pg = [] ->
  let pg' := effect_body cfg pg in
  ui pg' = fst (handleDetect_start cfg (youtubeUrl (ui pg)) (ui pg)) /\
  pollTimerRef pg' = Some (next_timer pg) /\
  timers pg' = [{| timer_id := next_timer pg; timer_delay := 60 * 1000;
                   timer_url := youtubeUrl (ui pg) |}] /\
  trace pg'
  = trace pg
    ++ ObsDetect :: match snd (handleDetect_start cfg (youtubeUrl (ui pg)) (ui pg)) with
                    | Some r => [ObsFetch r]
                    | None => []
                    end
    ++ [ObsSetInterval (next_timer pg) (60 * 1000)].
Proof.
  intros Hg Ht. unfold effect_body. rewrite Hg.
  destruct (call_handleDetect_frame cfg (youtubeUrl (ui pg)) pg) as (Hu & Hr & Hts & Hn & Htr).
  unfold setInterval_ref. cbn [ui pollTimerRef timers trace].
  rewrite Hu, Hts, Hn, Htr, Ht. repeat split; try reflexivity.
  now rewrite <- app_assoc.
Qed.

Lemma step_poll_timer (cfg : Config) (eng : Engine) (pg : Page) (e : Event) :
  poll_timer cfg pg -> poll_timer cfg (step cfg eng pg e).
Proof.
  intros H. unfold step, commit.
  destruct (handle_frame cfg eng e pg) as (Hr & Ht & _).
  destruct (deps_changed (ui pg) (ui (handle cfg eng e pg))) eqn:Ed.
  - destruct (cleanup_clears cfg pg (handle cfg eng e pg) H Hr Ht) as (Hc & _).
    destruct (poll_guard cfg (ui (handle cfg eng e pg))) eqn:Eg.
    + rewrite <- ui_effect_cleanup in Eg.
      destruct (effect_polls cfg (effect_cleanup (handle cfg eng e pg)) Eg Hc)
        as (Hu & Hr' & Ht' & _).
      destruct (handleDetect_start_frame cfg
                  (youtubeUrl (ui (effect_cleanup (handle cfg eng e pg))))
                  (ui (effect_cleanup (handle cfg eng e pg)))) as (_ & _ & Hy & Hv & _).
      unfold poll_timer.
      rewrite (poll_guard_ext cfg _ (ui (effect_cleanup (handle cfg eng e pg))))
        by (rewrite Hu; assumption).
      rewrite Eg. eexists. split; [exact Hr'|]. rewrite Ht', Hu, Hy. reflexivity.
    + rewrite effect_no_poll by exact Eg. unfold poll_timer. cbn [ui pollTimerRef timers].
      rewrite Eg. split; [reflexivity|].
      unfold effect_cleanup in Hc. destruct (pollTimerRef (handle cfg eng e pg)) as [id|].
      * cbn [clearInterval timers] in Hc. now rewrite Hc.
      * exact Hc.
  - apply deps_unchanged in Ed as [Hv Hu]. unfold poll_timer in *.
    rewrite <- (poll_guard_ext cfg (ui pg)) by assumption.
    rewrite Hr, Ht, <- Hu. exact H.
Qed.

Lemma mounted_eq (cfg : Config) : mounted cfg = unmounted.
Proof. unfold mounted, effect_body. now rewrite poll_guard_no_video. Qed.

Lemma run_poll_timer (cfg : Config) (eng : Engine) (evs : list Event) :
  poll_timer cfg (run cfg eng evs).
Proof.
  apply run_invariant.
  - rewrite mounted_eq. unfold poll_timer. rewrite poll_guard_no_video by reflexivity.
    split; reflexivity.
  - intros pg e. apply step_poll_timer.
Qed.



(** What a handler adds to the trace: nothing, or one call of
    [handleDetect] made while a stream reference is present. *)
Lemma handle_trace (cfg : Config) (eng : Engine) (e : Event) (pg : Page) :
  poll_timer cfg pg ->
  trace (handle cfg eng e pg) = trace pg \/
  (truthy_id (videoId (ui pg)) = true /\
   exists url, handle cfg eng e pg = call_handleDetect cfg url pg).
Proof.
  intros Hpt. destruct e as [text| | | | |id|n o]; simpl; try (now left).
  - unfold detect_disabled. destruct (truthy_id (videoId (ui pg))) eqn:Ev; simpl.
    + destruct (detectLoading (ui pg)); [now left|]. right. split; [reflexivity|]. now eexists.
    + now left.
  - destruct (find _ (timers pg)) as [t|] eqn:Ef; [|now left].
    right. split; [|now eexists].
    unfold poll_timer in Hpt. unfold poll_guard in Hpt.
    destruct (truthy_id (videoId (ui pg))); [reflexivity|].
    simpl in Hpt. destruct Hpt as (_ & Ht). rewrite Ht in Ef. discriminate.
  - destruct (nth_error _ _); now left.
Qed.

(** In the page a request is only ever sent while a stream reference is
    present: the button is disabled without one, and the effect and the
    timer need one. *)
Lemma fetch_needs_stream_reference (cfg : Config) (eng : Engine)
      (evs : list Event) (e : Event) (r : Request) :
  In (ObsFetch r)
     (skipn (length (trace (run cfg eng evs)))
            (trace (step cfg eng (run cfg eng evs) e))) ->
  truthy_id (videoId (ui (step cfg eng (run cfg eng evs) e))) = true.
Proof.
  pose proof (run_poll_timer cfg eng evs) as Hpt.
  generalize dependent (run cfg eng evs). intros pg Hpt Hin.
  destruct (handle_frame cfg eng e pg) as (Hr & Ht & _).
  unfold step, commit in *.
  destruct (handle_trace cfg eng e pg Hpt) as [Htr | (Hv & url & Hcall)].
  - destruct (deps_changed (ui pg) (ui (handle cfg eng e pg))) eqn:Ed.
    + destruct (cleanup_clears cfg pg (handle cfg eng e pg) Hpt Hr Ht) as (Hc & Hctr).
      destruct (poll_guard cfg (ui (handle cfg eng e pg))) eqn:Eg.
      * rewrite <- ui_effect_cleanup in Eg.
        destruct (effect_polls cfg _ Eg Hc) as (Hu & _).
        rewrite Hu.
        destruct (handleDetect_start_frame cfg
                    (youtubeUrl (ui (effect_cleanup (handle cfg eng e pg))))
                    (ui (effect_cleanup (handle cfg eng e pg)))) as (_ & _ & _ & -> & _).
        unfold poll_guard in Eg.
        destruct (truthy_id (videoId (ui (effect_cleanup (handle cfg eng e pg)))));
          [reflexivity | discriminate].
      * exfalso. rewrite effect_no_poll in Hin by exact Eg. cbn [trace] in Hin.
        rewrite Htr, skipn_length_app in Hin.
        destruct (pollTimerRef (handle cfg eng e pg)); simpl in Hin; intuition discriminate.
    + exfalso. rewrite Htr, skipn_all in Hin. exact Hin.
  - rewrite Hcall in *.
    destruct (call_handleDetect_frame cfg url pg) as (Hu & _).
    destruct (handleDetect_start_frame cfg url (ui pg)) as (_ & _ & Hy & Hvid & _).
    rewrite deps_changed_same by (rewrite Hu; congruence).
    rewrite Hu, Hvid. exact Hv.
Qed.

(* ================================================================== *)
(** ** The counter and the status *)

Lemma sound_start (cfg : Config) (url : jsstring) (s : State) :
  sound s -> sound (fst (handleDetect_start cfg url s)).
Proof.
  unfold sound. destruct (handleDetect_start_frame cfg url s) as (Ha & Hc & _).
  now rewrite Ha, Hc.
Qed.

Lemma sound_finish (eng : Engine) (o : Outcome) (s : State) :
  sound s -> sound (handleDetect_finish eng o s).
Proof.
  unfold sound. intros [Hc Ha].
  destruct o as [e|[|] [e|result]].
  - destruct (detect_failure_keeps_result eng (FetchRejected e) s I) as (_ & -> & -> & _).
    now split.
  - destruct (detect_failure_keeps_result eng (Response true (BodyRejected e)) s I)
      as (_ & -> & -> & _). now split.
  - unfold handleDetect_finish, try_block.
    destruct (get eng result _) as [t|e]; [destruct (truthy_opt t)|]; simpl;
      (split; [try lia | tauto]).
    pose proof (js_add_one_pos (activeAlerts s) Hc). lia.
  - destruct (detect_failure_keeps_result eng (Response false (BodyRejected e)) s I)
      as (_ & -> & -> & _). now split.
  - destruct (detect_failure_keeps_result eng (Response false (BodyJson result)) s I)
      as (_ & -> & -> & _). now split.
Qed.

Lemma sound_loadVideo (s : State) : sound s -> sound (loadVideo s).
Proof. unfold sound, loadVideo. destruct (negb _); simpl; tauto. Qed.

Lemma sound_call (cfg : Config) (url : jsstring) (pg : Page) :
  sound (ui pg) -> sound (ui (call_handleDetect cfg url pg)).
Proof.
  intros H. destruct (call_handleDetect_frame cfg url pg) as (-> & _).
  now apply sound_start.
Qed.

Lemma sound_handle (cfg : Config) (eng : Engine) (e : Event) (pg : Page) :
  sound (ui pg) -> sound (ui (handle cfg eng e pg)).
Proof.
  intros H. destruct e as [text| | | | |id|n o]; simpl.
  - exact H.
  - now apply sound_loadVideo.
  - destruct (detect_disabled (ui pg)); [exact H | now apply sound_call].
  - unfold sound. simpl. split; [lia | now right].
  - unfold sound. simpl. split; [lia | now left].
  - destruct (find _ _); [now apply sound_call | exact H].
  - destruct (nth_error _ _); [|exact H]. simpl. now apply sound_finish.
Qed.

Lemma sound_step (cfg : Config) (eng : Engine) (pg : Page) (e : Event) :
  sound (ui pg) -> sound (ui (step cfg eng pg e)).
Proof.
  intros H. apply (sound_handle cfg eng e) in H. unfold step, commit.
  destruct (deps_changed _ _); [|exact H].
  unfold effect_body. rewrite ui_effect_cleanup.
  destruct (poll_guard cfg (ui (handle cfg eng e pg))).
  - unfold setInterval_ref. cbn [ui]. apply sound_call. now rewrite ui_effect_cleanup.
  - rewrite <- (ui_effect_cleanup (handle cfg eng e pg)) in H.
    destruct (pollTimerRef (effect_cleanup (handle cfg eng e pg))); exact H.
Qed.

Lemma run_sound (cfg : Config) (eng : Engine) (evs : list Event) :
  sound (ui (run cfg eng evs)).
Proof.
  apply (run_invariant cfg eng (fun pg => sound (ui pg))).
  - rewrite mounted_eq. unfold sound. simpl. split; [lia | now left].
  - intros pg e. apply sound_step.
Qed.

(** C9.  The active alert count starts at 0 and is non-negative in every
    state the page can reach by typing, loading, detecting (by hand, by the
    effect or by the timer, with any response), simulating and
    resetting. *)
Theorem alerts_nonnegative (cfg : Config) (eng : Engine) (evs : list Event) :
  activeAlerts initial_state = 0%Z /\
  (0 <= activeAlerts (ui (run cfg eng evs)))%Z.
Proof. split; [reflexivity | apply run_sound]. Qed.

(** C10.  The status [warning] is never reached: in every reachable
    state the status is running or alert. *)
Theorem status_never_warning (cfg : Config) (eng : Engine) (evs : list Event) :
  (aiStatus (ui (run cfg eng evs)) = running \/ aiStatus (ui (run cfg eng evs)) = alert) /\
  aiStatus (ui (run cfg eng evs)) <> warning.
Proof.
  destruct (run_sound cfg eng evs) as [_ H]. split; [exact H|].
  destruct H as [-> | ->]; discriminate.
Qed.

(* ================================================================== *)
(** ** Concrete runs *)

Example video_id_watch :
  getYoutubeVideoId Sample.watch_url = Some Sample.XsOU8JnEpNM.
Proof. vm_compute. reflexivity. Qed.

Example video_id_short_link :
  getYoutubeVideoId (str "https://youtu.be/XsOU8JnEpNM?t=30") = Some Sample.XsOU8JnEpNM.
Proof. vm_compute. reflexivity. Qed.

Example video_id_embed :
  getYoutubeVideoId (str "https://www.youtube.com/embed/XsOU8JnEpNM?autoplay=1")
  = Some Sample.XsOU8JnEpNM.
Proof. vm_compute. reflexivity. Qed.

Example video_id_second_parameter :
  getYoutubeVideoId (str "https://www.youtube.com/watch?app=desktop&v=XsOU8JnEpNM")
  = Some Sample.XsOU8JnEpNM.
Proof. vm_compute. reflexivity. Qed.

Example video_id_unescaped_dot :
  getYoutubeVideoId (str "youtuXbe/XsOU8JnEpNM") = Some Sample.XsOU8JnEpNM.
Proof. vm_compute. reflexivity. Qed.

Example video_id_not_a_url : getYoutubeVideoId (str "not a url") = None.
Proof. vm_compute. reflexivity. Qed.

Example video_id_short_token :
  getYoutubeVideoId (str "https://www.youtube.com/watch?v=short") = None.
Proof. vm_compute. reflexivity. Qed.

Example video_id_no_marker :
  getYoutubeVideoId (str "https://www.youtube.com/shorts/XsOU8JnEpNM") = None.
Proof. vm_compute. reflexivity. Qed.

Example trim_spaces :
  trim (str "  https://youtu.be/XsOU8JnEpNM  ") = str "https://youtu.be/XsOU8JnEpNM".
Proof. vm_compute. reflexivity. Qed.

(** Typing a URL, loading it, and a triggered result arriving. *)
Example run_load_and_alert :
  let pg := run Sample.cfg Sample.eng
              [ EvType Sample.watch_url; EvLoad;
                EvSettle 0 (Response true (BodyJson (JObj Sample.triggered_fields))) ] in
  videoId (ui pg) = Some Sample.XsOU8JnEpNM /\
  aiStatus (ui pg) = alert /\
  activeAlerts (ui pg) = 1%Z /\
  inflight pg = [] /\
  map timer_id (timers pg) = [1] /\
  trace pg = [ ObsDetect; ObsFetch (detect_request Sample.cfg Sample.watch_url);
               ObsSetInterval 1 60000 ].
Proof. vm_compute. repeat split; reflexivity. Qed.

(** Editing the input after a load restarts the timer each time. *)
Example run_retype :
  let pg := run Sample.cfg Sample.eng
              [ EvType Sample.watch_url; EvLoad; EvType (str "x"); EvType [] ;
                EvType Sample.watch_url ] in
  map timer_id (timers pg) = [3] /\
  pollTimerRef pg = Some 3 /\
  trace pg = [ ObsDetect; ObsFetch (detect_request Sample.cfg Sample.watch_url);
               ObsSetInterval 1 60000;
               ObsClearInterval 1; ObsDetect; ObsSetInterval 2 60000;
               ObsClearInterval 2; ObsClearInterval 2;
               ObsDetect; ObsFetch (detect_request Sample.cfg Sample.watch_url);
               ObsSetInterval 3 60000 ].
Proof. vm_compute. repeat split; reflexivity. Qed.

(* ================================================================== *)
(** ** More on [getYoutubeVideoId] *)

(** What comes back from [getYoutubeVideoId] is an 11-character token
    that follows a marker of the first line of the input. *)
Theorem getYoutubeVideoId_sound (u id : jsstring) :
  getYoutubeVideoId u = Some id ->
  length id = 11 /\
  forallb token_char id = true /\
  exists p mk tail,
    u = p ++ mk ++ id ++ tail /\
    forallb any_char p = true /\ is_marker mk /\ token tail = [].
Proof.
  rewrite getYoutubeVideoId_eq.
  destruct (last_marker u) as [r|] eqn:E; [|discriminate].
  destruct (Nat.eqb_spec (length (token r)) 11) as [Hlen|]; [|discriminate].
  intros H. injection H as <-. split; [exact Hlen|]. split; [apply takeWhile_forallb|].
  apply last_marker_decomp in E as (p & mk & -> & Hmk & Hp).
  exists p, mk, (dropWhile token_char r). repeat split; try assumption.
  - unfold token. now rewrite takeWhile_dropWhile.
  - apply takeWhile_idem_drop.
Qed.

Lemma getYoutubeVideoId_sound_witness :
  length Sample.XsOU8JnEpNM = 11 /\
  forallb token_char Sample.XsOU8JnEpNM = true /\
  exists p mk tail,
    Sample.watch_url = p ++ mk ++ Sample.XsOU8JnEpNM ++ tail /\
    forallb any_char p = true /\ is_marker mk /\ token tail = [].
Proof.
  apply (getYoutubeVideoId_sound Sample.watch_url Sample.XsOU8JnEpNM).
  vm_compute. reflexivity.
Defined.

Lemma word_char_one_line : one_line is_word_char.
Proof.
  intros c H. unfold any_char. destruct (is_line_terminator c) eqn:E; [|reflexivity].
  unfold is_line_terminator in E.
  repeat (apply orb_true_iff in E as [E|E]); apply N.eqb_eq in E; subst c; discriminate H.
Qed.

Lemma markers_one_line : Forall (Forall one_line) markers.
Proof.
  unfold markers, lit. cbn [str map String.list_ascii_of_string app].
  repeat constructor;
    try (intros c H; apply N.eqb_eq in H; subst c; reflexivity);
    try (intros c H; exact H);
    try exact word_char_one_line.
Qed.

Lemma pat_match_one_line (p : pat) :
  Forall one_line p ->
  forall s, pat_match p s = true -> forallb any_char (firstn (length p) s) = true.
Proof.
  induction 1 as [|f p Hf _ IH]; intros [|c s] H; simpl in *; try reflexivity; try discriminate.
  apply andb_true_iff in H as [Hc H]. rewrite (Hf c Hc). simpl. now apply IH.
Qed.

(** A marker that starts [s] lies on one line. *)
Lemma marker_at_head_one_line (s : jsstring) (n : nat) :
  marker_at_head s = Some n -> forallb any_char (firstn n s) = true /\ 0 < n.
Proof.
  unfold marker_at_head. destruct (find _ markers) as [p|] eqn:E; cbn [option_map]; [|discriminate].
  intros H. injection H as <-. apply find_some in E as [Hin Hp]. split.
  - apply pat_match_one_line; [|exact Hp].
    pose proof markers_one_line as Hall. rewrite Forall_forall in Hall. now apply Hall.
  - revert Hin. unfold markers.
    intros [<-|[<-|[<-|[<-|[<-|[<-|[]]]]]]]; simpl; lia.
Qed.

Lemma last_marker_tail_none (c : char) (s : jsstring) :
  any_char c = true -> last_marker (c :: s) = None -> last_marker s = None.
Proof.
  unfold any_char. cbn [last_marker]. destruct (is_line_terminator c); [discriminate|].
  intros _. destruct (last_marker s); [discriminate | reflexivity].
Qed.

Lemma last_marker_skip_none (m : nat) :
  forall s, forallb any_char (firstn m s) = true ->
            last_marker s = None -> last_marker (skipn m s) = None.
Proof.
  induction m as [|m IH]; intros [|c s] Hm H; simpl in *; try assumption.
  apply andb_true_iff in Hm as [Hc Hm]. apply IH; [exact Hm|].
  now apply last_marker_tail_none with c.
Qed.

(** After the marker the pattern commits to, the first line holds no
    further marker. *)
Lemma last_marker_rest_none (s : jsstring) :
  forall r, last_marker s = Some r -> last_marker r = None.
Proof.
  induction s as [|c s IH]; intros r H.
  - discriminate H.
  - cbn [last_marker] in H. destruct (is_line_terminator c) eqn:Ec.
    + exfalso. unfold after_marker in H.
      destruct (marker_at_head (c :: s)) as [n|] eqn:E; [|discriminate].
      apply marker_at_head_one_line in E as [E Hn].
      destruct n; [lia|]. simpl in E. unfold any_char at 1 in E. rewrite Ec in E. discriminate.
    + destruct (last_marker s) as [t|] eqn:Et.
      * injection H as <-. now apply IH.
      * unfold after_marker in H.
        destruct (marker_at_head (c :: s)) as [n|] eqn:E; [|discriminate].
        injection H as <-. pose proof (marker_at_head_one_line _ _ E) as [Hl Hn].
        destruct n; [lia|]. simpl in Hl |- *. apply andb_true_iff in Hl as [_ Hl].
        now apply last_marker_skip_none.
Qed.

Lemma last_marker_none_inv (s : jsstring) :
  last_marker s = None ->
  forall j, j <= line_length s -> marker_at_head (skipn j s) = None.
Proof.
  induction s as [|c s IH]; intros H j Hj.
  - assert (j = 0) by (unfold line_length in Hj; simpl in Hj; lia). subst j.
    cbn [last_marker] in H. unfold after_marker in H. cbn [skipn].
    destruct (marker_at_head []); [discriminate | reflexivity].
  - rewrite line_length_cons in Hj. cbn [last_marker] in H. unfold any_char in Hj.
    destruct (is_line_terminator c) eqn:Ec; cbn [negb] in Hj.
    + assert (j = 0) by lia. subst j. cbn [skipn]. unfold after_marker in H.
      destruct (marker_at_head (c :: s)); [discriminate | reflexivity].
    + destruct (last_marker s) eqn:Es; [discriminate|].
      destruct j as [|j].
      * cbn [skipn]. unfold after_marker in H.
        destruct (marker_at_head (c :: s)); [discriminate | reflexivity].
      * cbn [skipn]. apply IH; [reflexivity | lia].
Qed.

Lemma line_length_firstn (s : jsstring) :
  forall k, k <= line_length s <-> k <= length s /\ forallb any_char (firstn k s) = true.
Proof.
  induction s as [|c s IH]; intros k.
  - unfold line_length. simpl. split.
    + intros H. assert (k = 0) by lia. subst. now split.
    + intros [H _]. lia.
  - rewrite line_length_cons. destruct k as [|k].
    + simpl. split; [intros _; split; [lia | reflexivity] | lia].
    + simpl. destruct (any_char c); simpl.
      * rewrite <- Nat.succ_le_mono, IH. rewrite <- Nat.succ_le_mono. reflexivity.
      * split; [lia | intros [_ H]; discriminate].
Qed.

Lemma pat_match_short (p : pat) :
  forall x t, length p <= length x -> pat_match p (x ++ t) = pat_match p x.
Proof.
  induction p as [|f p IH]; intros [|c x] t H; simpl in *; try reflexivity; try lia.
  f_equal. apply IH. lia.
Qed.

Lemma pat_match_split (x : jsstring) :
  forall p t, length x < length p -> pat_match p (x ++ t) = true ->
              pat_match (skipn (length x) p) t = true.
Proof.
  induction x as [|c x IH]; intros [|f p] t Hlen H; simpl in *; try lia; try assumption.
  apply andb_true_iff in H as [_ H]. apply IH; [lia | exact H].
Qed.

Lemma marker_at_head_none (s : jsstring) :
  marker_at_head s = None <-> forall p, In p markers -> pat_match p s = false.
Proof.
  unfold marker_at_head. split.
  - intros H p Hin. destruct (find _ markers) eqn:E; [discriminate|].
    exact (find_none _ _ E p Hin).
  - intros H. destruct (find _ markers) as [p|] eqn:E; [|reflexivity].
    apply find_some in E as [Hin Hp]. rewrite (H p Hin) in Hp. discriminate.
Qed.

(** Inside a video id, a marker can start before [player_tail] only if
    it could start there before any other tail. *)
Lemma marker_in_id (x t : jsstring) :
  x <> [] ->
  marker_at_head (x ++ t) = None -> marker_at_head (x ++ player_tail) = None.
Proof.
  intros Hx H. rewrite marker_at_head_none in *. intros p Hin.
  destruct (Nat.le_gt_cases (length p) (length x)) as [Hle|Hgt].
  - rewrite pat_match_short by exact Hle.
    rewrite <- (pat_match_short p x t Hle). now apply H.
  - destruct (pat_match p (x ++ player_tail)) eqn:E; [|reflexivity].
    apply pat_match_split in E; [|exact Hgt].
    assert (Hs : no_straddle = true) by (vm_compute; reflexivity).
    unfold no_straddle in Hs. rewrite forallb_forall in Hs. specialize (Hs p Hin).
    rewrite forallb_forall in Hs. specialize (Hs (length x)).
    rewrite E in Hs. symmetry. apply Hs. apply in_seq.
    destruct x; [contradiction | simpl in *; lia].
Qed.

Lemma player_tail_marker_free (i : nat) : marker_at_head (skipn i player_tail) = None.
Proof.
  destruct (Nat.le_gt_cases i (length player_tail)) as [Hle|Hgt].
  - assert (H : marker_free player_tail = true) by (vm_compute; reflexivity).
    unfold marker_free in H. rewrite forallb_forall in H. specialize (H i).
    unfold no_marker_at in H. destruct (marker_at_head (skipn i player_tail)); [|reflexivity].
    assert (false = true); [|discriminate]. apply H. apply in_seq. lia.
  - rewrite skipn_all2 by lia. reflexivity.
Qed.

Lemma skipn_app_plus (A : Type) (a b : list A) (k : nat) :
  skipn (length a + k) (a ++ b) = skipn k b.
Proof. induction a as [|x a IH]; simpl; [reflexivity | exact IH]. Qed.

Lemma line_length_app_eq (a b : jsstring) :
  forallb any_char a = true -> line_length (a ++ b) = length a + line_length b.
Proof.
  induction a as [|c a IH]; simpl; intros H; [reflexivity|].
  apply andb_true_iff in H as [Hc H]. rewrite line_length_cons, Hc, IH by exact H.
  reflexivity.
Qed.

Lemma video_id_token (u id : jsstring) :
  getYoutubeVideoId u = Some id -> length id = 11 /\ forallb token_char id = true.
Proof.
  rewrite getYoutubeVideoId_eq.
  destruct (last_marker u) as [r|]; [|discriminate].
  destruct (Nat.eqb_spec (length (token r)) 11) as [Hlen|]; [|discriminate].
  intros H. injection H as <-. split; [exact Hlen | apply takeWhile_forallb].
Qed.

(** Round trip: the player source that the page builds from a video id
    it extracted gives that id back. *)
Theorem player_src_round_trip (u id : jsstring) :
  getYoutubeVideoId u = Some id ->
  getYoutubeVideoId (player_src id) = Some id.
Proof.
  intros H. pose proof (video_id_token u id H) as (Hlen & Htok).
  rewrite getYoutubeVideoId_eq in H.
  destruct (last_marker u) as [r|] eqn:E; [|discriminate].
  destruct (Nat.eqb (length (token r)) 11); [|discriminate].
  injection H as Hid. apply last_marker_rest_none in E.
  assert (Hr : r = id ++ dropWhile token_char r).
  { rewrite <- Hid. unfold token. now rewrite takeWhile_dropWhile. }
  set (pre := str "https://www.youtube.com/").
  set (mk := str "embed/").
  change (player_src id) with (pre ++ mk ++ id ++ player_tail).
  apply getYoutubeVideoId_shape; try assumption; try reflexivity.
  unfold later_marker_free. apply forallb_forall. intros j Hj. apply in_seq in Hj.
  unfold no_marker_at.
  assert (Hll : line_length (pre ++ mk ++ id ++ player_tail)
                = 30 + line_length (id ++ player_tail)).
  { rewrite app_assoc. rewrite line_length_app_eq by reflexivity. reflexivity. }
  rewrite Hll in Hj. change (length pre) with 24 in Hj.
  assert (Hcase : j = 25 \/ j = 26 \/ j = 27 \/ j = 28 \/ j = 29 \/ 30 <= j) by lia.
  destruct Hcase as [->|[->|[->|[->|[->|Hge]]]]]; try reflexivity.
  replace j with (length (pre ++ mk) + (j - 30)) by (change (length (pre ++ mk)) with 30; lia).
  rewrite app_assoc, skipn_app_plus.
  assert (Hk : j - 30 <= line_length (id ++ player_tail)) by lia.
  remember (j - 30) as k eqn:Ek. clear Ek Hj Hge Hll j.
  destruct (Nat.le_gt_cases 11 k) as [Hbig|Hsmall].
  - replace k with (length id + (k - 11)) by lia.
    rewrite skipn_app_plus. rewrite player_tail_marker_free. reflexivity.
  - rewrite skipn_app, (proj2 (Nat.sub_0_le k (length id))) by lia. cbn [skipn].
    rewrite (marker_in_id (skipn k id) (dropWhile token_char r)); [reflexivity| |].
    + intros Hnil. apply (f_equal (@length _)) in Hnil. rewrite length_skipn in Hnil.
      simpl in Hnil. lia.
    + assert (Hsk : skipn k id ++ dropWhile token_char r = skipn k r).
      { rewrite Hr at 2. rewrite skipn_app, (proj2 (Nat.sub_0_le k (length id))) by lia.
        reflexivity. }
      rewrite Hsk. apply last_marker_none_inv; [exact E|].
      apply line_length_firstn. apply line_length_firstn in Hk as [_ Hk].
      rewrite firstn_app, (proj2 (Nat.sub_0_le k (length id))) in Hk by lia.
      cbn [firstn] in Hk. rewrite app_nil_r in Hk. split.
      * rewrite Hr, length_app. lia.
      * rewrite Hr, firstn_app, (proj2 (Nat.sub_0_le k (length id))) by lia.
        cbn [firstn]. now rewrite app_nil_r.
Qed.

Lemma player_src_round_trip_witness :
  getYoutubeVideoId (player_src Sample.XsOU8JnEpNM) = Some Sample.XsOU8JnEpNM.
Proof.
  apply (player_src_round_trip Sample.watch_url Sample.XsOU8JnEpNM).
  vm_compute. reflexivity.
Defined.

(* ================================================================== *)
(** ** What the reachable states have in common *)

Lemma get_property (eng : Engine) (v : json) (k : jsstring) :
  v <> JNull -> get eng v k = Ok (property v k).
Proof. destruct v; intros H; try reflexivity. contradiction. Qed.

Lemma coherent_start (cfg : Config) (url : jsstring) (s : State) :
  coherent s -> coherent (fst (handleDetect_start cfg url s)).
Proof.
  unfold coherent, in_step, result_backed, reference_extracted.
  destruct (handleDetect_start_frame cfg url s) as (Ha & Hc & _ & Hv & Hd).
  now rewrite Ha, Hc, Hv, Hd.
Qed.

Lemma coherent_finish (eng : Engine) (o : Outcome) (s : State) :
  coherent s -> coherent (handleDetect_finish eng o s).
Proof.
  intros (Hs & Hr & Hv).
  assert (Hkeep : match o with Response true (BodyJson _) => False | _ => True end ->
                  coherent (handleDetect_finish eng o s)).
  { intros Ho. destruct (detect_failure_keeps_result eng o s Ho) as (Hd & Hc & Ha & _).
    unfold coherent, in_step, result_backed, reference_extracted.
    rewrite Hd, Hc, Ha. repeat split; try assumption.
    unfold handleDetect_finish. destruct (try_block eng o s) as [s1 exn] eqn:E.
    assert (videoId s1 = videoId s).
    { destruct o as [e|[|] [e|result]]; simpl in E; try contradiction;
        try (injection E as <- _; reflexivity).
      destruct (get eng result _); [destruct (truthy_opt _)|]; injection E as <- _; reflexivity. }
    destruct exn; simpl; rewrite H; exact Hv. }
  destruct o as [e|[|] [e|result]]; try (apply Hkeep; exact I).
  unfold handleDetect_finish, try_block.
  destruct (get eng result (str "triggered")) as [t|e] eqn:Eg.
  - assert (Ht : t = property result (str "triggered")).
    { destruct result; simpl in Eg; try discriminate; injection Eg as <-; reflexivity. }
    destruct (truthy_opt t) eqn:Et.
    + split; [|split].
      * right. simpl. split; [reflexivity|]. apply js_add_one_pos.
        destruct Hs as [[_ ->]|[_ H1]]; lia.
      * intros _. reflexivity.
      * exact Hv.
    + split; [|split].
      * exact Hs.
      * unfold result_backed. simpl. rewrite <- Ht, Et. discriminate.
      * exact Hv.
  - assert (result = JNull) by (destruct result; simpl in Eg; try discriminate; reflexivity).
    subst result. split; [|split].
    + exact Hs.
    + unfold result_backed. simpl. discriminate.
    + exact Hv.
Qed.

Lemma coherent_loadVideo (s : State) : coherent s -> coherent (loadVideo s).
Proof.
  intros (Hs & Hr & Hv). unfold coherent, in_step, result_backed, reference_extracted, loadVideo.
  destruct (truthy_id (getYoutubeVideoId (trim (youtubeUrl s)))) eqn:E; simpl;
    repeat split; try assumption; try discriminate.
  intros id Hid. now exists (trim (youtubeUrl s)).
Qed.

Lemma coherent_handle (cfg : Config) (eng : Engine) (e : Event) (pg : Page) :
  coherent (ui pg) -> coherent (ui (handle cfg eng e pg)).
Proof.
  intros H. destruct e as [text| | | | |id|n o]; simpl.
  - exact H.
  - now apply coherent_loadVideo.
  - destruct (detect_disabled (ui pg)); [exact H|].
    destruct (call_handleDetect_frame cfg (youtubeUrl (ui pg)) pg) as (-> & _).
    now apply coherent_start.
  - destruct H as (Hs & Hr & Hv). unfold coherent, in_step, result_backed, reference_extracted.
    simpl. repeat split; try assumption; try reflexivity. right. split; [reflexivity | lia].
  - destruct H as (Hs & Hr & Hv). unfold coherent, in_step, result_backed, reference_extracted.
    simpl. repeat split; try assumption; try discriminate. left. now split.
  - destruct (find _ _) as [t|]; [|exact H].
    destruct (call_handleDetect_frame cfg (timer_url t) pg) as (-> & _).
    now apply coherent_start.
  - destruct (nth_error _ _); [|exact H]. simpl. now apply coherent_finish.
Qed.

Lemma ui_step (cfg : Config) (eng : Engine) (pg : Page) (e : Event) :
  ui (step cfg eng pg e) = ui (handle cfg eng e pg) \/
  ui (step cfg eng pg e)
  = fst (handleDetect_start cfg (youtubeUrl (ui (handle cfg eng e pg)))
           (ui (handle cfg eng e pg))).
Proof.
  unfold step, commit. destruct (deps_changed _ _); [|now left].
  unfold effect_body. rewrite ui_effect_cleanup.
  destruct (poll_guard cfg (ui (handle cfg eng e pg))).
  - right. unfold setInterval_ref. cbn [ui].
    destruct (call_handleDetect_frame cfg
                (youtubeUrl (ui (handle cfg eng e pg)))
                (effect_cleanup (handle cfg eng e pg))) as (-> & _).
    now rewrite ui_effect_cleanup.
  - left. rewrite <- (ui_effect_cleanup (handle cfg eng e pg)).
    destruct (pollTimerRef (effect_cleanup (handle cfg eng e pg))); reflexivity.
Qed.

Lemma run_coherent (cfg : Config) (eng : Engine) (evs : list Event) :
  coherent (ui (run cfg eng evs)).
Proof.
  apply (run_invariant cfg eng (fun pg => coherent (ui pg))).
  - rewrite mounted_eq. unfold coherent, in_step, result_backed, reference_extracted.
    simpl. repeat split; try discriminate. left. now split.
  - intros pg e H. apply (coherent_handle cfg eng e) in H.
    destruct (ui_step cfg eng pg e) as [-> | ->]; [exact H | now apply coherent_start].
Qed.

Lemma truthy_string_nil (s : jsstring) : truthy_string s = true <-> s <> [].
Proof. destruct s; simpl; split; intros H; try discriminate; try reflexivity; congruence. Qed.

Lemma start_sends (cfg : Config) (url : jsstring) (s s1 : State) (r : Request) :
  handleDetect_start cfg url s = (s1, Some r) ->
  guarded_request cfg r /\ detectLoading s1 = true /\ errorTip s1 = [].
Proof.
  unfold handleDetect_start.
  destruct (truthy_string (trim url)); simpl; [|discriminate].
  destruct (getYoutubeVideoId (trim url)) as [id|] eqn:Eid; simpl; [|discriminate].
  destruct (truthy_string id); simpl; [|discriminate].
  destruct (truthy_string (TRIO_API_URL cfg)) eqn:Eu; simpl; [|discriminate].
  destruct (truthy_string (TRIO_API_KEY cfg)) eqn:Ek; simpl; [|discriminate].
  intros H. injection H as <- <-. repeat split.
  exists url, id. repeat split; try assumption; now apply truthy_string_nil.
Qed.

Lemma start_blocked (cfg : Config) (url : jsstring) (s s1 : State) :
  handleDetect_start cfg url s = (s1, None) -> detectLoading s1 = detectLoading s.
Proof.
  unfold handleDetect_start.
  destruct (_ || _); [intros H; injection H as <-; reflexivity|].
  destruct (_ || _); [intros H; injection H as <-; reflexivity | discriminate].
Qed.

Lemma finish_not_loading (eng : Engine) (o : Outcome) (s : State) :
  detectLoading (handleDetect_finish eng o s) = false.
Proof. unfold handleDetect_finish. now destruct (try_block eng o s). Qed.

Lemma Forall_remove_nth (A : Type) (P : A -> Prop) (n : nat) :
  forall l, Forall P l -> Forall P (remove_nth n l).
Proof.
  induction n as [|n IH]; intros l H; destruct H as [|x l Hx Hl]; simpl;
    try constructor; auto.
Qed.

Lemma guarded_call (cfg : Config) (url : jsstring) (pg : Page) :
  guarded cfg pg -> guarded cfg (call_handleDetect cfg url pg).
Proof.
  intros (Ht & Hi & Hl). unfold guarded, call_handleDetect.
  destruct (handleDetect_start cfg url (ui pg)) as [s1 [r|]] eqn:E; cbn [ui trace inflight].
  - apply start_sends in E as (Hr & _). repeat split.
    + apply Forall_app. split; [exact Ht | repeat constructor; exact Hr].
    + apply Forall_app. split; [exact Hi | repeat constructor; exact Hr].
    + intros _ Hnil. apply app_eq_nil in Hnil as [_ Hnil]. discriminate.
  - apply start_blocked in E. rewrite app_nil_r, E. repeat split; try assumption.
    apply Forall_app. split; [exact Ht | repeat constructor].
Qed.

Lemma guarded_with_ui (cfg : Config) (f : State -> State) (pg : Page) :
  (forall s, detectLoading (f s) = detectLoading s) ->
  guarded cfg pg -> guarded cfg (with_ui f pg).
Proof. intros Hf (Ht & Hi & Hl). unfold guarded. simpl. rewrite Hf. now repeat split. Qed.

Lemma guarded_handle (cfg : Config) (eng : Engine) (e : Event) (pg : Page) :
  guarded cfg pg -> guarded cfg (handle cfg eng e pg).
Proof.
  intros H. destruct e as [text| | | | |id|n o]; simpl.
  - now apply guarded_with_ui.
  - apply guarded_with_ui; [|exact H]. intros s. unfold loadVideo. now destruct (negb _).
  - destruct (detect_disabled (ui pg)); [exact H | now apply guarded_call].
  - now apply guarded_with_ui.
  - now apply guarded_with_ui.
  - destruct (find _ _); [now apply guarded_call | exact H].
  - destruct (nth_error _ _); [|exact H]. destruct H as (Ht & Hi & Hl).
    unfold guarded. simpl. rewrite finish_not_loading. repeat split.
    + exact Ht.
    + now apply Forall_remove_nth.
    + discriminate.
Qed.

Lemma guarded_clear (cfg : Config) (id : nat) (pg : Page) :
  guarded cfg pg -> guarded cfg (clearInterval id pg).
Proof.
  intros (Ht & Hi & Hl). unfold guarded. simpl. repeat split; try assumption.
  apply Forall_app. split; [exact Ht | repeat constructor].
Qed.

Lemma guarded_step (cfg : Config) (eng : Engine) (pg : Page) (e : Event) :
  guarded cfg pg -> guarded cfg (step cfg eng pg e).
Proof.
  intros H. apply (guarded_handle cfg eng e) in H. unfold step, commit.
  destruct (deps_changed _ _); [|exact H].
  assert (Hc : guarded cfg (effect_cleanup (handle cfg eng e pg))).
  { unfold effect_cleanup. destruct (pollTimerRef _); [now apply guarded_clear | exact H]. }
  unfold effect_body. destruct (poll_guard cfg _) eqn:Eg.
  - apply (guarded_call cfg (youtubeUrl (ui (effect_cleanup (handle cfg eng e pg))))) in Hc.
    destruct Hc as (Ht & Hi & Hl). unfold guarded, setInterval_ref. simpl. repeat split;
      try assumption.
    apply Forall_app. split; [exact Ht|]. repeat constructor.
    + unfold poll_guard in Eg. apply andb_true_iff in Eg as [Eg _].
      apply andb_true_iff in Eg as [_ Eg]. now apply truthy_string_nil.
    + unfold poll_guard in Eg. apply andb_true_iff in Eg as [_ Eg]. now apply truthy_string_nil.
  - destruct (pollTimerRef _); [|exact Hc].
    apply (guarded_clear cfg n) in Hc. exact Hc.
Qed.

Lemma run_guarded (cfg : Config) (eng : Engine) (evs : list Event) :
  guarded cfg (run cfg eng evs).
Proof.
  apply run_invariant.
  - rewrite mounted_eq. unfold guarded. simpl. repeat split; try constructor. discriminate.
  - intros pg e. apply guarded_step.
Qed.

(* ================================================================== *)
(** ** The page as its user sees it *)

(** In every reachable state the status and the counter agree: running
    with count 0, or alert with a count of at least 1; so the status bar
    says alert exactly when the active alert is pinned to the list. *)
Theorem status_matches_counter (cfg : Config) (eng : Engine) (evs : list Event) :
  let s := ui (run cfg eng evs) in
  ((aiStatus s = running /\ activeAlerts s = 0%Z) \/
   (aiStatus s = alert /\ (1 <= activeAlerts s)%Z)) /\
  status_bar_text s
  = (if active_alert_pinned s then str "ALERT TRIGGERED" else str "LIVE INFERENCE").
Proof.
  intros s. destruct (run_coherent cfg eng evs) as (Hs & _). fold s in Hs.
  split; [exact Hs|]. unfold status_bar_text, active_alert_pinned.
  destruct Hs as [[-> ->]|[-> H]]; simpl; [reflexivity|].
  destruct (Z.ltb_spec 0 (activeAlerts s)); [reflexivity | lia].
Qed.

(** Whenever the result panel reads high risk, the status is alert, the
    status bar says so and the active alert is pinned. *)
Theorem high_risk_result_is_alert (cfg : Config) (eng : Engine) (evs : list Event) :
  result_panel_status (ui (run cfg eng evs)) = Some text_high_risk ->
  aiStatus (ui (run cfg eng evs)) = alert /\
  status_bar_text (ui (run cfg eng evs)) = str "ALERT TRIGGERED" /\
  active_alert_pinned (ui (run cfg eng evs)) = true.
Proof.
  intros H. destruct (run_coherent cfg eng evs) as (Hs & Hr & _).
  assert (Ha : aiStatus (ui (run cfg eng evs)) = alert).
  { apply Hr. unfold result_panel_status in H.
    destruct (truthy (detectResult _)); [|discriminate].
    destruct (truthy_opt _); [reflexivity | discriminate]. }
  split; [exact Ha|]. unfold status_bar_text, active_alert_pinned. rewrite Ha. split; [reflexivity|].
  destruct Hs as [[Hrun _]|[_ Hc]]; [congruence|]. apply Z.ltb_lt. lia.
Qed.

Lemma high_risk_result_is_alert_witness :
  result_panel_status (ui (run Sample.cfg Sample.eng Runs.load_alert)) = Some text_high_risk /\
  aiStatus (ui (run Sample.cfg Sample.eng Runs.load_alert)) = alert /\
  status_bar_text (ui (run Sample.cfg Sample.eng Runs.load_alert)) = str "ALERT TRIGGERED" /\
  active_alert_pinned (ui (run Sample.cfg Sample.eng Runs.load_alert)) = true.
Proof.
  split; [vm_compute; reflexivity|].
  apply (high_risk_result_is_alert Sample.cfg Sample.eng Runs.load_alert).
  vm_compute; reflexivity.
Defined.

(** In every reachable state the stream reference, when present, is an
    11-character token without [#], [&], [?], and the video container
    holds the player frame for it. *)
Theorem reference_is_video_id (cfg : Config) (eng : Engine) (evs : list Event)
        (id : jsstring) :
  videoId (ui (run cfg eng evs)) = Some id ->
  length id = 11 /\
  forallb token_char id = true /\
  player (ui (run cfg eng evs)) = Frame (player_src id).
Proof.
  intros H. destruct (run_coherent cfg eng evs) as (_ & _ & Hv).
  destruct (Hv id H) as (u & Hu). destruct (video_id_token u id Hu) as (Hlen & Htok).
  repeat split; try assumption. unfold player. rewrite H.
  destruct id; [discriminate Hlen | reflexivity].
Qed.

Lemma reference_is_video_id_witness :
  videoId (ui (run Sample.cfg Sample.eng Runs.load)) = Some Sample.XsOU8JnEpNM /\
  length Sample.XsOU8JnEpNM = 11 /\
  forallb token_char Sample.XsOU8JnEpNM = true /\
  player (ui (run Sample.cfg Sample.eng Runs.load)) = Frame (player_src Sample.XsOU8JnEpNM).
Proof.
  split; [vm_compute; reflexivity|].
  apply (reference_is_video_id Sample.cfg Sample.eng Runs.load Sample.XsOU8JnEpNM).
  vm_compute; reflexivity.
Defined.

(** While the button reads "Detecting...", a call is in flight. *)
Theorem detecting_means_in_flight (cfg : Config) (eng : Engine) (evs : list Event) :
  detect_button_label (ui (run cfg eng evs)) = str "Detecting..." ->
  inflight (run cfg eng evs) <> [].
Proof.
  intros H. destruct (run_guarded cfg eng evs) as (_ & _ & Hl). apply Hl.
  unfold detect_button_label in H. destruct (detectLoading _); [reflexivity | discriminate].
Qed.

Lemma detecting_means_in_flight_witness :
  detect_button_label (ui (run Sample.cfg Sample.eng Runs.load)) = str "Detecting..." /\
  inflight (run Sample.cfg Sample.eng Runs.load) <> [].
Proof.
  split; [vm_compute; reflexivity|].
  apply (detecting_means_in_flight Sample.cfg Sample.eng Runs.load).
  vm_compute; reflexivity.
Defined.

(* ================================================================== *)
(** ** The requests the page sends *)

Lemma or_default_truthy (v : option jsstring) (d : jsstring) :
  d <> [] -> or_default v d <> [].
Proof.
  intros Hd. unfold or_default. destruct v as [s|]; [|exact Hd].
  destruct s; simpl; [exact Hd | discriminate].
Qed.

(** Every request the page ever sends goes by POST to the configured,
    non-empty endpoint with a bearer header built from a non-empty key;
    its body holds a trimmed input from which a video id can be extracted
    and a non-empty prompt. *)
Theorem requests_are_guarded (env : Env) (eng : Engine) (evs : list Event) (r : Request) :
  In (ObsFetch r) (trace (run (config_of_env env) eng evs)) ->
  exists url id,
    getYoutubeVideoId (trim url) = Some id /\
    req_url r = TRIO_API_URL (config_of_env env) /\
    req_url r <> [] /\
    req_method r = str "POST" /\
    req_headers r = [ (str "Authorization", str "Bearer " ++ TRIO_API_KEY (config_of_env env));
                      (str "Content-Type", str "application/json") ] /\
    TRIO_API_KEY (config_of_env env) <> [] /\
    req_body r = JObj [ (str "stream_url", JStr (trim url));
                        (str "condition", JStr (DETECT_PROMPT (config_of_env env))) ] /\
    DETECT_PROMPT (config_of_env env) <> [].
Proof.
  intros Hin. destruct (run_guarded (config_of_env env) eng evs) as (Ht & _).
  rewrite Forall_forall in Ht. specialize (Ht _ Hin).
  destruct Ht as (url & id & -> & Hid & Hu & Hk).
  exists url, id. repeat split; try assumption.
  apply or_default_truthy. discriminate.
Qed.

Lemma requests_are_guarded_witness :
  exists url id,
    getYoutubeVideoId (trim url) = Some id /\
    req_url (detect_request (config_of_env Runs.env) Sample.watch_url)
    = TRIO_API_URL (config_of_env Runs.env) /\
    req_url (detect_request (config_of_env Runs.env) Sample.watch_url) <> [] /\
    req_method (detect_request (config_of_env Runs.env) Sample.watch_url) = str "POST" /\
    req_headers (detect_request (config_of_env Runs.env) Sample.watch_url)
    = [ (str "Authorization", str "Bearer " ++ TRIO_API_KEY (config_of_env Runs.env));
        (str "Content-Type", str "application/json") ] /\
    TRIO_API_KEY (config_of_env Runs.env) <> [] /\
    req_body (detect_request (config_of_env Runs.env) Sample.watch_url)
    = JObj [ (str "stream_url", JStr (trim url));
             (str "condition", JStr (DETECT_PROMPT (config_of_env Runs.env))) ] /\
    DETECT_PROMPT (config_of_env Runs.env) <> [].
Proof.
  apply (requests_are_guarded Runs.env Sample.eng Runs.load
           (detect_request (config_of_env Runs.env) Sample.watch_url)).
  vm_compute. right. left. reflexivity.
Defined.

(** Without an endpoint or without a key the page never sends a request
    and never starts a timer, whatever the user does. *)
Theorem unconfigured_page_is_silent (env : Env) (eng : Engine) (evs : list Event) :
  TRIO_API_URL (config_of_env env) = [] \/ TRIO_API_KEY (config_of_env env) = [] ->
  inflight (run (config_of_env env) eng evs) = [] /\
  timers (run (config_of_env env) eng evs) = [] /\
  (forall r, ~ In (ObsFetch r) (trace (run (config_of_env env) eng evs))) /\
  (forall id delay, ~ In (ObsSetInterval id delay) (trace (run (config_of_env env) eng evs))).
Proof.
  intros H. destruct (run_guarded (config_of_env env) eng evs) as (Ht & Hi & _).
  rewrite Forall_forall in Ht. repeat split.
  - destruct (inflight _) as [|r l]; [reflexivity|]. exfalso.
    inversion Hi as [|? ? (url & id & _ & _ & Hu & Hk) _]. destruct H; contradiction.
  - pose proof (run_poll_timer (config_of_env env) eng evs) as Hp. unfold poll_timer in Hp.
    destruct (poll_guard _ _) eqn:Eg; [|now destruct Hp]. exfalso.
    unfold poll_guard in Eg. apply andb_true_iff in Eg as [Eg Ek].
    apply andb_true_iff in Eg as [_ Eu].
    apply truthy_string_nil in Eu, Ek. destruct H; contradiction.
  - intros r Hin. destruct (Ht _ Hin) as (url & id & _ & _ & Hu & Hk). destruct H; contradiction.
  - intros id delay Hin. destruct (Ht _ Hin) as (_ & Hu & Hk). destruct H; contradiction.
Qed.

Lemma unconfigured_page_is_silent_witness :
  inflight (run (config_of_env Runs.env_no_url) Sample.eng Runs.load_alert) = [] /\
  timers (run (config_of_env Runs.env_no_url) Sample.eng Runs.load_alert) = [] /\
  (forall r, ~ In (ObsFetch r)
               (trace (run (config_of_env Runs.env_no_url) Sample.eng Runs.load_alert))) /\
  (forall id delay,
      ~ In (ObsSetInterval id delay)
          (trace (run (config_of_env Runs.env_no_url) Sample.eng Runs.load_alert))).
Proof.
  apply (unconfigured_page_is_silent Runs.env_no_url Sample.eng Runs.load_alert).
  left. reflexivity.
Defined.

Lemma start_passes (cfg : Config) (url id : jsstring) (s : State) :
  getYoutubeVideoId (trim url) = Some id ->
  TRIO_API_URL cfg <> [] -> TRIO_API_KEY cfg <> [] ->
  handleDetect_start cfg url s
  = (setErrorTip [] (setDetectLoading true s), Some (detect_request cfg (trim url))).
Proof.
  intros Hid Hu Hk. unfold handleDetect_start. rewrite Hid.
  destruct (video_id_token _ _ Hid) as (Hlen & _).
  assert (Et : truthy_string (trim url) = true).
  { destruct (trim url); [discriminate Hid | reflexivity]. }
  assert (Ei : truthy_id (Some id) = true) by (destruct id; [discriminate Hlen | reflexivity]).
  apply truthy_string_nil in Hu, Hk. now rewrite Et, Ei, Hu, Hk.
Qed.

Lemma start_rejects_input (cfg : Config) (url : jsstring) (s : State) :
  getYoutubeVideoId (trim url) = None ->
  handleDetect_start cfg url s = (setErrorTip msg_load_first s, None).
Proof.
  intros Hid. unfold handleDetect_start. rewrite Hid. simpl. now rewrite orb_true_r.
Qed.

Lemma inflight_call (cfg : Config) (url : jsstring) (pg : Page) :
  inflight (call_handleDetect cfg url pg)
  = inflight pg ++ match snd (handleDetect_start cfg url (ui pg)) with
                   | Some r => [r]
                   | None => []
                   end.
Proof. unfold call_handleDetect. now destruct (handleDetect_start _ _ _). Qed.

Lemma inflight_effect_cleanup (pg : Page) : inflight (effect_cleanup pg) = inflight pg.
Proof. unfold effect_cleanup. now destruct (pollTimerRef pg). Qed.

Lemma next_timer_effect_cleanup (pg : Page) : next_timer (effect_cleanup pg) = next_timer pg.
Proof. unfold effect_cleanup. now destruct (pollTimerRef pg). Qed.

(** A tick of the running timer sends a request for the current input
    whether or not an earlier call is still in flight. *)
Theorem tick_sends_regardless (cfg : Config) (eng : Engine) (evs : list Event)
        (t : Timer) (id : jsstring) :
  timers (run cfg eng evs) = [t] ->
  getYoutubeVideoId (trim (youtubeUrl (ui (run cfg eng evs)))) = Some id ->
  inflight (step cfg eng (run cfg eng evs) (EvTick (timer_id t)))
  = inflight (run cfg eng evs)
    ++ [detect_request cfg (trim (youtubeUrl (ui (run cfg eng evs))))] /\
  timers (step cfg eng (run cfg eng evs) (EvTick (timer_id t))) = [t] /\
  detectLoading (ui (step cfg eng (run cfg eng evs) (EvTick (timer_id t)))) = true.
Proof.
  pose proof (run_poll_timer cfg eng evs) as Hp.
  generalize dependent (run cfg eng evs). intros pg Hp Ht Hid.
  unfold poll_timer in Hp. destruct (poll_guard cfg (ui pg)) eqn:Eg.
  - destruct Hp as (n & Hr & Hts). rewrite Hts in Ht. injection Ht as <-.
    unfold poll_guard in Eg. apply andb_true_iff in Eg as [Eg Ek].
    apply andb_true_iff in Eg as [_ Eu]. apply truthy_string_nil in Eu, Ek.
    assert (Eh : handle cfg eng (EvTick n) pg = call_handleDetect cfg (youtubeUrl (ui pg)) pg).
    { simpl. rewrite Hts. simpl. now rewrite Nat.eqb_refl. }
    unfold step, commit. cbn [timer_id]. rewrite Eh.
    destruct (call_handleDetect_frame cfg (youtubeUrl (ui pg)) pg) as (Hu & _ & Htm & _).
    destruct (handleDetect_start_frame cfg (youtubeUrl (ui pg)) (ui pg))
      as (_ & _ & Hy & Hv & _).
    rewrite deps_changed_same by (rewrite Hu; congruence).
    rewrite inflight_call, Htm, Hu, (start_passes cfg _ id (ui pg) Hid Eu Ek), Hts.
    repeat split; reflexivity.
  - destruct Hp as (_ & Hts). rewrite Hts in Ht. discriminate.
Qed.

Lemma tick_sends_regardless_witness :
  inflight (step Sample.cfg Sample.eng (run Sample.cfg Sample.eng Runs.load) (EvTick 1))
  = inflight (run Sample.cfg Sample.eng Runs.load)
    ++ [detect_request Sample.cfg
          (trim (youtubeUrl (ui (run Sample.cfg Sample.eng Runs.load))))] /\
  timers (step Sample.cfg Sample.eng (run Sample.cfg Sample.eng Runs.load) (EvTick 1))
  = [{| timer_id := 1; timer_delay := 60000; timer_url := Sample.watch_url |}] /\
  detectLoading (ui (step Sample.cfg Sample.eng (run Sample.cfg Sample.eng Runs.load)
                       (EvTick 1))) = true.
Proof.
  apply (tick_sends_regardless Sample.cfg Sample.eng Runs.load
           {| timer_id := 1; timer_delay := 60000; timer_url := Sample.watch_url |}
           Sample.XsOU8JnEpNM); vm_compute; reflexivity.
Defined.

(** With a video loaded and the page configured, every edit of the URL
    input to a different, non-blank text restarts the timer and calls
    [handleDetect] at once, without the load button: a text with a video
    id is sent as a request while the loaded video stays; any other text
    sets the load-a-valid-video message. *)
Theorem typing_calls_detect (cfg : Config) (eng : Engine) (evs : list Event)
        (vid text : jsstring) :
  videoId (ui (run cfg eng evs)) = Some vid ->
  TRIO_API_URL cfg <> [] -> TRIO_API_KEY cfg <> [] ->
  text <> youtubeUrl (ui (run cfg eng evs)) ->
  trim text <> [] ->
  let pg := run cfg eng evs in
  let pg' := step cfg eng pg (EvType text) in
  videoId (ui pg') = Some vid /\
  youtubeUrl (ui pg') = text /\
  timers pg' = [{| timer_id := next_timer pg; timer_delay := 60 * 1000; timer_url := text |}] /\
  match getYoutubeVideoId (trim text) with
  | Some _ =>
      inflight pg' = inflight pg ++ [detect_request cfg (trim text)] /\
      errorTip (ui pg') = []
  | None =>
      inflight pg' = inflight pg /\ errorTip (ui pg') = msg_load_first
  end.
Proof.
  intros Hv Hu Hk Hne Htrim pg pg'.
  pose proof (run_poll_timer cfg eng evs) as Hp.
  destruct (run_coherent cfg eng evs) as (_ & _ & Hex).
  fold pg in Hv, Hne, Hp, Hex.
  destruct (Hex vid Hv) as (u & Hvid). destruct (video_id_token u vid Hvid) as (Hlen & _).
  set (pg1 := with_ui (setYoutubeUrl text) pg).
  assert (Ed : deps_changed (ui pg) (ui pg1) = true).
  { unfold deps_changed. apply orb_true_iff. right. apply negb_true_iff.
    destruct (string_eqb (youtubeUrl (ui pg)) (youtubeUrl (ui pg1))) eqn:E; [|reflexivity].
    apply string_eqb_eq in E. simpl in E. congruence. }
  assert (Eg : poll_guard cfg (ui (effect_cleanup pg1)) = true).
  { rewrite ui_effect_cleanup. unfold poll_guard. simpl. rewrite Hv.
    apply truthy_string_nil in Hu, Hk, Htrim. rewrite Hu, Hk, Htrim.
    destruct vid; [discriminate Hlen | reflexivity]. }
  destruct (cleanup_clears cfg pg pg1 Hp eq_refl eq_refl) as (Hc & _).
  destruct (effect_polls cfg (effect_cleanup pg1) Eg Hc) as (Hui & _ & Htm & _).
  assert (E' : pg' = effect_body cfg (effect_cleanup pg1)).
  { unfold pg', step, commit. change (handle cfg eng (EvType text) pg) with pg1.
    now rewrite Ed. }
  rewrite ui_effect_cleanup, next_timer_effect_cleanup in *.
  change (youtubeUrl (ui pg1)) with text in *. change (next_timer pg1) with (next_timer pg) in *.
  destruct (handleDetect_start_frame cfg text (ui pg1)) as (_ & _ & Hy & Hvv & _).
  rewrite E', Hui, Hy, Hvv, Htm. repeat split; try assumption.
  assert (Ei : inflight (effect_body cfg (effect_cleanup pg1))
               = inflight pg ++ match snd (handleDetect_start cfg text (ui pg1)) with
                                | Some r => [r]
                                | None => []
                                end).
  { unfold effect_body. rewrite !ui_effect_cleanup, Eg. unfold setInterval_ref.
    cbn [inflight]. change (youtubeUrl (ui pg1)) with text.
    rewrite inflight_call, inflight_effect_cleanup, ui_effect_cleanup. reflexivity. }
  rewrite Ei. destruct (getYoutubeVideoId (trim text)) as [id|] eqn:Eid.
  - rewrite (start_passes cfg text id (ui pg1) Eid Hu Hk). split; reflexivity.
  - rewrite (start_rejects_input cfg text (ui pg1) Eid). simpl. now rewrite app_nil_r.
Qed.

Lemma typing_calls_detect_witness :
  let pg := run Sample.cfg Sample.eng Runs.load in
  let pg' := step Sample.cfg Sample.eng pg (EvType Runs.other_url) in
  videoId (ui pg') = Some Sample.XsOU8JnEpNM /\
  youtubeUrl (ui pg') = Runs.other_url /\
  timers pg' = [{| timer_id := next_timer pg; timer_delay := 60 * 1000;
                   timer_url := Runs.other_url |}] /\
  match getYoutubeVideoId (trim Runs.other_url) with
  | Some _ =>
      inflight pg' = inflight pg ++ [detect_request Sample.cfg (trim Runs.other_url)] /\
      errorTip (ui pg') = []
  | None =>
      inflight pg' = inflight pg /\ errorTip (ui pg') = msg_load_first
  end.
Proof.
  apply (typing_calls_detect Sample.cfg Sample.eng Runs.load
           Sample.XsOU8JnEpNM Runs.other_url);
    try (vm_compute; reflexivity); vm_compute; discriminate.
Defined.

(* ================================================================== *)
(** ** How the actions compose *)

Lemma loadVideo_idem (s : State) : loadVideo (loadVideo s) = loadVideo s.
Proof.
  unfold loadVideo.
  destruct (truthy_id (getYoutubeVideoId (trim (youtubeUrl s)))) eqn:E; simpl; rewrite E;
    reflexivity.
Qed.

Lemma with_ui_fixed (f : State -> State) (pg : Page) :
  f (ui pg) = ui pg -> with_ui f pg = pg.
Proof. destruct pg. unfold with_ui. simpl. now intros ->. Qed.

Lemma loadVideo_guard (cfg : Config) (s : State) :
  poll_guard cfg (loadVideo s) = true ->
  exists id, getYoutubeVideoId (trim (youtubeUrl s)) = Some id /\
             loadVideo s = setVideoId (Some id) (setDetectResult JNull (setErrorTip [] s)) /\
             TRIO_API_URL cfg <> [] /\ TRIO_API_KEY cfg <> [].
Proof.
  unfold poll_guard, loadVideo. intros H.
  apply andb_true_iff in H as [H Hk]. apply andb_true_iff in H as [H Hu].
  apply andb_true_iff in H as [H _]. apply truthy_string_nil in Hu, Hk.
  destruct (getYoutubeVideoId (trim (youtubeUrl s))) as [id|] eqn:E.
  - exists id. destruct (truthy_id (Some id)); simpl in *; [|discriminate]. now repeat split.
  - simpl in H. discriminate.
Qed.

(** Pressing the load button a second time changes nothing: no request
    is sent and the timer is not restarted. *)
Theorem load_twice (cfg : Config) (eng : Engine) (pg : Page) :
  step cfg eng (step cfg eng pg EvLoad) EvLoad = step cfg eng pg EvLoad.
Proof.
  assert (Hfix : loadVideo (ui (step cfg eng pg EvLoad)) = ui (step cfg eng pg EvLoad)).
  { unfold step, commit. cbn [handle].
    destruct (deps_changed _ _).
    - unfold effect_body. rewrite ui_effect_cleanup. cbn [with_ui ui].
      destruct (poll_guard cfg (loadVideo (ui pg))) eqn:Eg.
      + unfold setInterval_ref. cbn [ui].
        destruct (call_handleDetect_frame cfg (youtubeUrl (loadVideo (ui pg)))
                    (effect_cleanup (with_ui loadVideo pg))) as (-> & _).
        rewrite ui_effect_cleanup. cbn [with_ui ui].
        destruct (loadVideo_guard cfg (ui pg) Eg) as (id & Hid & -> & Hu & Hk).
        cbn [youtubeUrl setVideoId setDetectResult setErrorTip].
        rewrite (start_passes cfg _ id _ Hid Hu Hk). cbn [fst].
        unfold loadVideo. cbn [youtubeUrl setVideoId setDetectResult setErrorTip setDetectLoading].
        rewrite Hid. destruct (truthy_id (Some id)) eqn:Et; [reflexivity|].
        apply video_id_token in Hid as [Hlen _]. destruct id; [discriminate Hlen | discriminate Et].
      + assert (Hui : forall q, ui match pollTimerRef (effect_cleanup q) with
                                   | Some id => set_ref None (clearInterval id (effect_cleanup q))
                                   | None => effect_cleanup q
                                   end = ui q).
        { intros q. rewrite <- (ui_effect_cleanup q).
          destruct (pollTimerRef (effect_cleanup q)); reflexivity. }
        rewrite Hui. cbn [with_ui ui]. apply loadVideo_idem.
    - cbn [with_ui ui]. apply loadVideo_idem. }
  unfold step at 1, commit. cbn [handle].
  rewrite (with_ui_fixed loadVideo _ Hfix).
  now rewrite deps_changed_same.
Qed.

Lemma finish_frame (eng : Engine) (o : Outcome) (s : State) :
  videoId (handleDetect_finish eng o s) = videoId s /\
  youtubeUrl (handleDetect_finish eng o s) = youtubeUrl s.
Proof.
  unfold handleDetect_finish.
  destruct o as [e|[|] [e|result]]; simpl; try (split; reflexivity).
  - destruct (get eng result _) as [t|e]; [destruct (truthy_opt t)|]; split; reflexivity.
  - destruct (get eng result _) as [t|e]; [destruct (truthy_opt _)|]; simpl;
      try (split; reflexivity).
    destruct (option_map _ _); split; reflexivity.
Qed.

(** The reset action does not cancel a call in flight: when its response
    arrives afterwards with a triggered result, the alert is back with a
    count of 1 and the result is stored. *)
Theorem late_response_after_reset (cfg : Config) (eng : Engine) (pg : Page)
        (n : nat) (req : Request) (fields : list (jsstring * json)) :
  nth_error (inflight pg) n = Some req ->
  own_property (str "triggered") fields = Some (JBool true) ->
  let pg' := step cfg eng (step cfg eng pg EvReset)
               (EvSettle n (Response true (BodyJson (JObj fields)))) in
  aiStatus (ui pg') = alert /\
  activeAlerts (ui pg') = 1%Z /\
  detectResult (ui pg') = JObj fields /\
  inflight pg' = remove_nth n (inflight pg).
Proof.
  intros Hn Hf pg'. subst pg'.
  assert (H1 : step cfg eng pg EvReset = with_ui resetStatus pg).
  { unfold step, handle, commit. now rewrite deps_changed_same. }
  rewrite H1. unfold step, commit. cbn [handle with_ui inflight]. rewrite Hn.
  destruct (finish_frame eng (Response true (BodyJson (JObj fields))) (resetStatus (ui pg)))
    as (Hv & Hy).
  rewrite deps_changed_same by (cbn [with_ui set_inflight ui]; congruence).
  cbn [with_ui set_inflight ui inflight].
  rewrite (handleDetect_finish_ok eng (JObj fields) (Some (JBool true)))
    by (simpl; now rewrite Hf).
  repeat split; reflexivity.
Qed.

Lemma late_response_after_reset_witness :
  let pg' := step Sample.cfg Sample.eng
               (step Sample.cfg Sample.eng (run Sample.cfg Sample.eng Runs.load) EvReset)
               (EvSettle 0 (Response true (BodyJson (JObj Sample.triggered_fields)))) in
  aiStatus (ui pg') = alert /\
  activeAlerts (ui pg') = 1%Z /\
  detectResult (ui pg') = JObj Sample.triggered_fields /\
  inflight pg' = remove_nth 0 (inflight (run Sample.cfg Sample.eng Runs.load)).
Proof.
  apply (late_response_after_reset Sample.cfg Sample.eng
           (run Sample.cfg Sample.eng Runs.load) 0
           (detect_request Sample.cfg Sample.watch_url) Sample.triggered_fields);
    vm_compute; reflexivity.
Defined.

(* ================================================================== *)
(** ** Responses *)

(** A run of [handleDetect] whose call is rejected, or whose body is not
    JSON, ends with the exception's message (the fixed text for a value
    that is no [Error]) and with [detectLoading] false; nothing else
    changes. *)
Theorem rejected_detect_sets_message_only (cfg : Config) (eng : Engine)
        (net : Request -> Outcome) (s : State) (req : Request) (e : thrown) :
  snd (handleDetect_start cfg (youtubeUrl s) s) = Some req ->
  net req = FetchRejected e \/ (exists ok, net req = Response ok (BodyRejected e)) ->
  handleDetect cfg eng net s
  = (setDetectLoading false
       (setErrorTip match e with
                    | ThrownError message => message
                    | ThrownOther => msg_request_failed
                    end s),
     [req]).
Proof.
  intros Hstart Hnet. unfold handleDetect.
  destruct (handleDetect_start cfg (youtubeUrl s) s) as [s1 r] eqn:E.
  simpl in Hstart. subst r.
  assert (Hs1 : s1 = setErrorTip [] (setDetectLoading true s)).
  { unfold handleDetect_start in E.
    destruct (_ || _) in E; [discriminate|]. destruct (_ || _) in E; [discriminate|].
    now injection E as <- _. }
  subst s1. destruct Hnet as [-> | ([|] & ->)]; reflexivity.
Qed.

Lemma rejected_detect_sets_message_only_witness :
  handleDetect Sample.cfg Sample.eng
    (fun _ => FetchRejected (ThrownError (str "Failed to fetch")))
    Sample.loaded_with_result
  = (setDetectLoading false (setErrorTip (str "Failed to fetch") Sample.loaded_with_result),
     [detect_request Sample.cfg Sample.watch_url]).
Proof.
  apply (rejected_detect_sets_message_only Sample.cfg Sample.eng
           (fun _ => FetchRejected (ThrownError (str "Failed to fetch")))
           Sample.loaded_with_result
           (detect_request Sample.cfg Sample.watch_url)
           (ThrownError (str "Failed to fetch"))).
  - vm_compute. reflexivity.
  - left. reflexivity.
Defined.

(** An HTTP-ok body other than [null] that the result panel can render
    is stored as it is, without any check of its shape, the page renders
    with it, and the handler sets no error message; the alert is raised
    exactly when its [triggered] property is truthy (the count, between 0
    and 2^53, goes up by one while it is below 2^53 and stays at 2^53),
    so a body without that property, or one that is no object, raises
    none. *)
Theorem ok_body_is_stored_unvalidated (eng : Engine) (result : json) (s : State) :
  result <> JNull ->
  result_renders result = true ->
  (0 <= activeAlerts s <= 2 ^ 53)%Z ->
  let s' := handleDetect_finish eng (Response true (BodyJson result)) s in
  detectResult s' = result /\
  result_renders (detectResult s') = true /\
  errorTip s' = errorTip s /\
  detectLoading s' = false /\
  if truthy_opt (property result (str "triggered"))
  then aiStatus s' = alert /\
       activeAlerts s'
       = (if activeAlerts s <? 2 ^ 53 then activeAlerts s + 1 else activeAlerts s)%Z
  else aiStatus s' = aiStatus s /\ activeAlerts s' = activeAlerts s.
Proof.
  intros H Hr Hb s'. subst s'.
  rewrite (handleDetect_finish_ok eng result (property result (str "triggered")) s)
    by now apply get_property.
  destruct (truthy_opt _); cbn [detectResult setDetectLoading setActiveAlerts setAiStatus
                                 setDetectResult errorTip detectLoading aiStatus activeAlerts];
    repeat split; try reflexivity; try assumption.
  now apply js_add_one_capped.
Qed.

Lemma ok_body_is_stored_unvalidated_witness :
  let s' := handleDetect_finish Sample.eng
              (Response true (BodyJson (JStr (str "OK")))) Sample.loaded_with_result in
  detectResult s' = JStr (str "OK") /\
  result_renders (detectResult s') = true /\
  errorTip s' = errorTip Sample.loaded_with_result /\
  detectLoading s' = false /\
  aiStatus s' = aiStatus Sample.loaded_with_result /\
  activeAlerts s' = activeAlerts Sample.loaded_with_result.
Proof.
  apply (ok_body_is_stored_unvalidated Sample.eng (JStr (str "OK")) Sample.loaded_with_result).
  - discriminate.
  - reflexivity.
  - change (2 ^ 53)%Z with 9007199254740992%Z. simpl. lia.
Defined.

(** A body the result panel cannot render is stored all the same: here
    [explanation] is an object, which React refuses as a child. *)
Lemma ok_body_may_not_render :
  detectResult
    (handleDetect_finish Sample.eng
       (Response true (BodyJson (JObj [(str "explanation", JObj [])])))
       Sample.loaded_with_result)
  = JObj [(str "explanation", JObj [])] /\
  result_renders (JObj [(str "explanation", JObj [])]) = false.
Proof. split; reflexivity. Qed.

(* ================================================================== *)
(** ** Surrounding white space *)

Lemma dropWhile_app (p : char -> bool) (a b : jsstring) :
  dropWhile p (a ++ b)
  = if forallb p a then dropWhile p b else dropWhile p a ++ b.
Proof.
  induction a as [|c a IH]; simpl; [reflexivity|].
  destruct (p c); simpl; [exact IH | reflexivity].
Qed.

Lemma dropWhile_all (p : char -> bool) (a : jsstring) :
  forallb p a = true -> dropWhile p a = [].
Proof.
  induction a as [|c a IH]; simpl; [reflexivity|].
  intros H. apply andb_true_iff in H as [Hc H]. rewrite Hc. now apply IH.
Qed.

Lemma forallb_rev (p : char -> bool) (a : jsstring) :
  forallb p (rev a) = forallb p a.
Proof.
  induction a as [|c a IH]; simpl; [reflexivity|].
  rewrite forallb_app, IH. simpl. rewrite andb_true_r. apply andb_comm.
Qed.

Lemma trim_surrounded (a u b : jsstring) :
  forallb is_trimmed_char a = true -> forallb is_trimmed_char b = true ->
  trim (a ++ u ++ b) = trim u.
Proof.
  intros Ha Hb. unfold trim, trimStart, trimEnd.
  rewrite dropWhile_app, Ha, dropWhile_app.
  destruct (forallb is_trimmed_char u) eqn:Eu.
  - rewrite (dropWhile_all _ b Hb), (dropWhile_all _ u Eu). reflexivity.
  - rewrite rev_app_distr, dropWhile_app, forallb_rev, Hb. reflexivity.
Qed.

(** White space and line breaks around the URL input do not matter: the
    load action finds the same video id and [handleDetect] sends the same
    request, whose [stream_url] is the trimmed text. *)
Theorem surrounding_space_ignored (cfg : Config) (s : State) (a u b : jsstring) :
  forallb is_trimmed_char a = true ->
  forallb is_trimmed_char b = true ->
  videoId (loadVideo (setYoutubeUrl (a ++ u ++ b) s))
  = videoId (loadVideo (setYoutubeUrl u s)) /\
  snd (handleDetect_start cfg (a ++ u ++ b) s) = snd (handleDetect_start cfg u s) /\
  forall req, snd (handleDetect_start cfg (a ++ u ++ b) s) = Some req ->
              req_body req = JObj [ (str "stream_url", JStr (trim u));
                                    (str "condition", JStr (DETECT_PROMPT cfg)) ].
Proof.
  intros Ha Hb. pose proof (trim_surrounded a u b Ha Hb) as Ht.
  unfold loadVideo, handleDetect_start. cbn [youtubeUrl setYoutubeUrl]. rewrite Ht.
  split; [|split].
  - destruct (negb _); reflexivity.
  - reflexivity.
  - destruct (_ || _); [discriminate|]. destruct (_ || _); [discriminate|].
    intros req H. simpl in H. injection H as <-. reflexivity.
Qed.

Lemma surrounding_space_ignored_witness :
  videoId (loadVideo (setYoutubeUrl (str "  " ++ Sample.watch_url ++ [10%N]) initial_state))
  = videoId (loadVideo (setYoutubeUrl Sample.watch_url initial_state)) /\
  snd (handleDetect_start Sample.cfg (str "  " ++ Sample.watch_url ++ [10%N]) initial_state)
  = snd (handleDetect_start Sample.cfg Sample.watch_url initial_state).
Proof.
  destruct (surrounding_space_ignored Sample.cfg initial_state
              (str "  ") Sample.watch_url [10%N] eq_refl eq_refl) as (H1 & H2 & _).
  split; [exact H1 | exact H2].
Defined.

(* ================================================================== *)
(** ** How the counter and the status move *)

Lemma finish_alerts (eng : Engine) (o : Outcome) (s : State) :
  (aiStatus (handleDetect_finish eng o s) = aiStatus s /\
   activeAlerts (handleDetect_finish eng o s) = activeAlerts s) \/
  (aiStatus (handleDetect_finish eng o s) = alert /\
   activeAlerts (handleDetect_finish eng o s) = js_add (activeAlerts s) 1).
Proof.
  destruct o as [e|[|] [e|result]];
    try (left;
         match goal with
         | |- context [handleDetect_finish eng ?o s] =>
             destruct (detect_failure_keeps_result eng o s I) as (_ & -> & -> & _)
         end;
         split; reflexivity).
  unfold handleDetect_finish, try_block.
  destruct (get eng result _) as [t|e]; [destruct (truthy_opt t)|]; simpl;
    [right | left | left]; split; reflexivity.
Qed.

Lemma step_alerts (cfg : Config) (eng : Engine) (pg : Page) (e : Event) :
  aiStatus (ui (step cfg eng pg e)) = aiStatus (ui (handle cfg eng e pg)) /\
  activeAlerts (ui (step cfg eng pg e)) = activeAlerts (ui (handle cfg eng e pg)).
Proof.
  destruct (ui_step cfg eng pg e) as [-> | ->]; [split; reflexivity|].
  destruct (handleDetect_start_frame cfg (youtubeUrl (ui (handle cfg eng e pg)))
              (ui (handle cfg eng e pg))) as (Ha & Hc & _).
  now split.
Qed.

Lemma handle_alerts (cfg : Config) (eng : Engine) (e : Event) (pg : Page) :
  e <> EvReset -> e <> EvSimulate ->
  (aiStatus (ui (handle cfg eng e pg)) = aiStatus (ui pg) /\
   activeAlerts (ui (handle cfg eng e pg)) = activeAlerts (ui pg)) \/
  (aiStatus (ui (handle cfg eng e pg)) = alert /\
   activeAlerts (ui (handle cfg eng e pg)) = js_add (activeAlerts (ui pg)) 1 /\
   exists n o, e = EvSettle n o).
Proof.
  intros Hr Hs. destruct e as [text| | | | |id|n o]; simpl; try contradiction.
  - left. split; reflexivity.
  - left. unfold loadVideo. destruct (negb _); split; reflexivity.
  - left. destruct (detect_disabled (ui pg)); [split; reflexivity|].
    destruct (call_handleDetect_frame cfg (youtubeUrl (ui pg)) pg) as (-> & _).
    destruct (handleDetect_start_frame cfg (youtubeUrl (ui pg)) (ui pg)) as (Ha & Hc & _).
    now split.
  - left. destruct (find _ _) as [t|]; [|split; reflexivity].
    destruct (call_handleDetect_frame cfg (timer_url t) pg) as (-> & _).
    destruct (handleDetect_start_frame cfg (timer_url t) (ui pg)) as (Ha & Hc & _).
    now split.
  - destruct (nth_error _ _); [|left; split; reflexivity]. simpl.
    destruct (finish_alerts eng o (ui pg)) as [H | [H1 H2]]; [now left|].
    right. repeat split; try assumption. now exists n, o.
Qed.

Lemma step_capped (cfg : Config) (eng : Engine) (pg : Page) (e : Event) :
  (0 <= activeAlerts (ui pg) <= 2 ^ 53)%Z ->
  (0 <= activeAlerts (ui (step cfg eng pg e)) <= 2 ^ 53)%Z.
Proof.
  intros H. destruct (step_alerts cfg eng pg e) as (_ & ->).
  assert (Hpow : (1 <= 2 ^ 53)%Z) by (change (2 ^ 53)%Z with 9007199254740992%Z; lia).
  assert (Hgen : e <> EvReset -> e <> EvSimulate ->
                 (0 <= activeAlerts (ui (handle cfg eng e pg)) <= 2 ^ 53)%Z).
  { intros Hr Hs. destruct (handle_alerts cfg eng e pg Hr Hs) as [[_ ->]|(_ & -> & _)];
      [exact H|].
    rewrite js_add_one_capped by exact H.
    destruct (Z.ltb_spec (activeAlerts (ui pg)) (2 ^ 53)); lia. }
  destruct e as [text| | | | |id|n o]; try (apply Hgen; discriminate).
  - change (activeAlerts (ui (handle cfg eng EvSimulate pg))) with 1%Z. lia.
  - change (activeAlerts (ui (handle cfg eng EvReset pg))) with 0%Z. lia.
Qed.

(** In every reachable state the count lies between 0 and 2^53. *)
Lemma run_capped (cfg : Config) (eng : Engine) (evs : list Event) :
  (0 <= activeAlerts (ui (run cfg eng evs)) <= 2 ^ 53)%Z.
Proof.
  apply (run_invariant cfg eng (fun pg => (0 <= activeAlerts (ui pg) <= 2 ^ 53)%Z)).
  - rewrite mounted_eq. change (2 ^ 53)%Z with 9007199254740992%Z. simpl. lia.
  - intros pg e. apply step_capped.
Qed.

(** In every reachable state, apart from the reset and the simulate-alert
    actions, no event lowers the active alert count or ends an alert: the
    status and the count stay, or a settled response sets the status to
    alert and raises the count by exactly one; only at 2^53, the end of
    the integers a JavaScript number can count, the count stays. *)
Theorem alerts_only_grow (cfg : Config) (eng : Engine) (evs : list Event) (e : Event) :
  e <> EvReset -> e <> EvSimulate ->
  let pg := run cfg eng evs in
  (aiStatus (ui (step cfg eng pg e)) = aiStatus (ui pg) /\
   activeAlerts (ui (step cfg eng pg e)) = activeAlerts (ui pg)) \/
  (aiStatus (ui (step cfg eng pg e)) = alert /\
   activeAlerts (ui (step cfg eng pg e))
   = (if activeAlerts (ui pg) <? 2 ^ 53 then activeAlerts (ui pg) + 1
      else activeAlerts (ui pg))%Z /\
   exists n o, e = EvSettle n o).
Proof.
  intros Hr Hs pg. destruct (step_alerts cfg eng pg e) as (-> & ->).
  destruct (handle_alerts cfg eng e pg Hr Hs) as [H | (Ha & Hc & He)]; [now left|].
  right. repeat split; try assumption.
  rewrite Hc. apply js_add_one_capped. apply run_capped.
Qed.

Lemma alerts_only_grow_witness :
  let pg := run Sample.cfg Sample.eng Runs.load_alert in
  (aiStatus (ui (step Sample.cfg Sample.eng pg EvLoad)) = aiStatus (ui pg) /\
   activeAlerts (ui (step Sample.cfg Sample.eng pg EvLoad)) = activeAlerts (ui pg)) \/
  (aiStatus (ui (step Sample.cfg Sample.eng pg EvLoad)) = alert /\
   activeAlerts (ui (step Sample.cfg Sample.eng pg EvLoad))
   = (if activeAlerts (ui pg) <? 2 ^ 53 then activeAlerts (ui pg) + 1
      else activeAlerts (ui pg))%Z /\
   exists n o, EvLoad = EvSettle n o).
Proof.
  apply (alerts_only_grow Sample.cfg Sample.eng Runs.load_alert EvLoad); discriminate.
Defined.

(** The manual-detect button is dead while no video is loaded or while
    [detectLoading] is set: a click changes nothing and sends nothing. *)
Theorem manual_detect_gated (cfg : Config) (eng : Engine) (pg : Page) :
  videoId (ui pg) = None \/ detectLoading (ui pg) = true ->
  step cfg eng pg EvDetectClick = pg.
Proof.
  intros H. unfold step, handle.
  assert (Hd : detect_disabled (ui pg) = true).
  { unfold detect_disabled. destruct H as [-> | ->]; [reflexivity | apply orb_true_r]. }
  rewrite Hd. unfold commit. now rewrite deps_changed_same.
Qed.

Lemma manual_detect_gated_witness :
  step Sample.cfg Sample.eng (run Sample.cfg Sample.eng Runs.load) EvDetectClick
  = run Sample.cfg Sample.eng Runs.load.
Proof.
  apply (manual_detect_gated Sample.cfg Sample.eng (run Sample.cfg Sample.eng Runs.load)).
  right. vm_compute. reflexivity.
Defined.

(* ================================================================== *)
(** ** The counter at 2^53 *)

Lemma run_app (cfg : Config) (eng : Engine) (a b : list Event) :
  run cfg eng (a ++ b) = fold_left (step cfg eng) b (run cfg eng a).
Proof. unfold run. apply fold_left_app. Qed.

(** One tick with a triggered answer, on the idle sample page. *)
Lemma cycle_counts (pg : Page) :
  Runs.idle pg ->
  Runs.idle (fold_left (step Sample.cfg Sample.eng) Runs.cycle pg) /\
  activeAlerts (ui (fold_left (step Sample.cfg Sample.eng) Runs.cycle pg))
  = js_add (activeAlerts (ui pg)) 1.
Proof.
  intros (Ht & Hi & Hy & Hv).
  assert (Hid : getYoutubeVideoId (trim Sample.watch_url) = Some Sample.XsOU8JnEpNM)
    by (vm_compute; reflexivity).
  assert (Hu : TRIO_API_URL Sample.cfg <> []) by discriminate.
  assert (Hk : TRIO_API_KEY Sample.cfg <> []) by discriminate.
  set (req := detect_request Sample.cfg (trim Sample.watch_url)).
  set (pg1 := step Sample.cfg Sample.eng pg (EvTick 1)).
  assert (E1 : pg1 = call_handleDetect Sample.cfg Sample.watch_url pg).
  { unfold pg1, step, commit. cbn [handle]. rewrite Ht. cbn [find timer_id Nat.eqb timer_url].
    destruct (call_handleDetect_frame Sample.cfg Sample.watch_url pg) as (H1 & _).
    destruct (handleDetect_start_frame Sample.cfg Sample.watch_url (ui pg))
      as (_ & _ & H2 & H3 & _).
    now rewrite deps_changed_same by (rewrite H1; congruence). }
  assert (Hstart : handleDetect_start Sample.cfg Sample.watch_url (ui pg)
                   = (setErrorTip [] (setDetectLoading true (ui pg)), Some req))
    by (apply start_passes with Sample.XsOU8JnEpNM; assumption).
  assert (Hui1 : ui pg1 = setErrorTip [] (setDetectLoading true (ui pg))).
  { rewrite E1. destruct (call_handleDetect_frame Sample.cfg Sample.watch_url pg) as (-> & _).
    now rewrite Hstart. }
  assert (Hin1 : inflight pg1 = [req]).
  { rewrite E1, inflight_call, Hstart, Hi. reflexivity. }
  assert (Ht1 : timers pg1 = timers pg).
  { rewrite E1. now destruct (call_handleDetect_frame Sample.cfg Sample.watch_url pg)
      as (_ & _ & -> & _). }
  change (fold_left (step Sample.cfg Sample.eng) Runs.cycle pg)
    with (step Sample.cfg Sample.eng pg1 (EvSettle 0 Runs.triggered)).
  destruct (finish_frame Sample.eng Runs.triggered (ui pg1)) as (Hfv & Hfy).
  assert (E2 : step Sample.cfg Sample.eng pg1 (EvSettle 0 Runs.triggered)
               = with_ui (handleDetect_finish Sample.eng Runs.triggered)
                   (set_inflight [] pg1)).
  { unfold step, commit. cbn [handle]. rewrite Hin1. cbn [nth_error remove_nth].
    now rewrite deps_changed_same by (cbn [with_ui set_inflight ui]; congruence). }
  rewrite E2. unfold Runs.idle. cbn [with_ui set_inflight ui inflight timers].
  rewrite Hfv, Hfy, Ht1, Hui1. split.
  { split; [exact Ht|]. split; [reflexivity|]. split; [exact Hy|exact Hv]. }
  unfold Runs.triggered.
  rewrite (handleDetect_finish_ok Sample.eng (JObj Sample.triggered_fields)
             (Some (JBool true))) by reflexivity.
  reflexivity.
Qed.

(** The sample page reaches every count up to 2^53 and none beyond. *)
Lemma alerts_count (n : nat) :
  Runs.idle (run Sample.cfg Sample.eng (Runs.alerts n)) /\
  activeAlerts (ui (run Sample.cfg Sample.eng (Runs.alerts n)))
  = Z.min (1 + Z.of_nat n) (2 ^ 53).
Proof.
  assert (Hpow : (2 ^ 53 = 9007199254740992)%Z) by reflexivity.
  induction n as [|n (IHi & IHc)].
  - unfold Runs.alerts. cbn [Runs.cycles]. rewrite app_nil_r. split.
    + repeat split; vm_compute; reflexivity.
    + assert (H1 : activeAlerts (ui (run Sample.cfg Sample.eng Runs.load_alert)) = 1%Z)
        by (vm_compute; reflexivity).
      rewrite H1. change (Z.of_nat 0) with 0%Z. lia.
  - unfold Runs.alerts in *. cbn [Runs.cycles]. rewrite app_assoc, run_app.
    destruct (cycle_counts _ IHi) as (Hi & Hc). split; [exact Hi|].
    rewrite Hc, IHc, js_add_one_capped by lia.
    rewrite Nat2Z.inj_succ.
    destruct (Z.ltb_spec (Z.min (1 + Z.of_nat n) (2 ^ 53)) (2 ^ 53)); lia.
Qed.

(** At 2^53 the count stays: one more triggered response, taken alone or
    as one more tick of the page, leaves it there. *)
Lemma count_stays_at_2_53 (n : nat) :
  Z.of_nat n = (2 ^ 53 - 1)%Z ->
  activeAlerts (ui (run Sample.cfg Sample.eng (Runs.alerts n))) = (2 ^ 53)%Z /\
  activeAlerts (handleDetect_finish Sample.eng Runs.triggered
                  (ui (run Sample.cfg Sample.eng (Runs.alerts n))))
  = (2 ^ 53)%Z /\
  activeAlerts (ui (run Sample.cfg Sample.eng (Runs.alerts n ++ Runs.cycle)))
  = (2 ^ 53)%Z.
Proof.
  intros Hn.
  assert (Hpow : (2 ^ 53 = 9007199254740992)%Z) by reflexivity.
  destruct (alerts_count n) as (Hi & Hc). rewrite run_app.
  generalize dependent (run Sample.cfg Sample.eng (Runs.alerts n)). intros pg Hi Hc.
  assert (Htop : activeAlerts (ui pg) = (2 ^ 53)%Z) by (rewrite Hc; lia).
  split; [exact Htop|].
  destruct (cycle_counts pg Hi) as (_ & Hcyc). split.
  - unfold Runs.triggered.
    rewrite (handleDetect_finish_ok Sample.eng (JObj Sample.triggered_fields)
               (Some (JBool true))) by reflexivity.
    cbn [truthy_opt truthy activeAlerts setDetectLoading setActiveAlerts
         setAiStatus setDetectResult].
    rewrite Htop. apply js_add_one_top.
  - rewrite Hcyc, Htop. apply js_add_one_top.
Qed.

(** C1 as stated fails at the end of the counter's range: after 2^53
    alerts on the sample page, one more HTTP-ok response with
    [triggered = true] leaves the active alert count as it is. *)
Lemma detect_ok_at_2_53 :
  own_property (str "triggered") Sample.triggered_fields = Some (JBool true) /\
  activeAlerts (ui (run Sample.cfg Sample.eng (Runs.alerts (Z.to_nat (2 ^ 53 - 1)))))
  = (2 ^ 53)%Z /\
  activeAlerts (handleDetect_finish Sample.eng Runs.triggered
                  (ui (run Sample.cfg Sample.eng (Runs.alerts (Z.to_nat (2 ^ 53 - 1))))))
  = (2 ^ 53)%Z /\
  activeAlerts (ui (run Sample.cfg Sample.eng
                      (Runs.alerts (Z.to_nat (2 ^ 53 - 1)) ++ Runs.cycle)))
  = (2 ^ 53)%Z.
Proof.
  split; [reflexivity|].
  apply (count_stays_at_2_53 (Z.to_nat (2 ^ 53 - 1))).
  apply Z2Nat.id. discriminate.
Qed.

(* ================================================================== *)
(** ** Detection without a stream reference or without configuration *)

(** Without an endpoint or without a key [handleDetect] returns at one of
    its two guards; the guard on the URL input comes first. *)
Lemma start_unconfigured (cfg : Config) (url : jsstring) (s : State) :
  TRIO_API_URL cfg = [] \/ TRIO_API_KEY cfg = [] ->
  handleDetect_start cfg url s
  = (setErrorTip (if truthy_id (getYoutubeVideoId (trim url))
                  then msg_bad_config else msg_load_first) s, None).
Proof.
  intros H. unfold handleDetect_start.
  destruct (truthy_id (getYoutubeVideoId (trim url))) eqn:Eid.
  - assert (Et : truthy_string (trim url) = true).
    { destruct (trim url); [discriminate Eid | reflexivity]. }
    rewrite Et. simpl.
    destruct H as [H|H]; rewrite H; simpl; [|rewrite orb_true_r]; reflexivity.
  - rewrite orb_true_r. reflexivity.
Qed.

(** A call of [handleDetect] from a handler changes no dependency of the
    effect, so the effect does not run after it. *)
Lemma commit_call (cfg : Config) (url : jsstring) (pg : Page) :
  commit cfg (ui pg) (call_handleDetect cfg url pg) = call_handleDetect cfg url pg.
Proof.
  unfold commit.
  destruct (call_handleDetect_frame cfg url pg) as (Hu & _).
  destruct (handleDetect_start_frame cfg url (ui pg)) as (_ & _ & Hy & Hv & _).
  now rewrite deps_changed_same by (rewrite Hu; congruence).
Qed.

Lemma call_keeps_deps (cfg : Config) (url : jsstring) (pg : Page) :
  videoId (ui (call_handleDetect cfg url pg)) = videoId (ui pg) /\
  youtubeUrl (ui (call_handleDetect cfg url pg)) = youtubeUrl (ui pg).
Proof.
  destruct (call_handleDetect_frame cfg url pg) as (-> & _).
  destruct (handleDetect_start_frame cfg url (ui pg)) as (_ & _ & Hy & Hv & _).
  now split.
Qed.

Lemma in_skipn (A : Type) (x : A) (n : nat) (l : list A) : In x (skipn n l) -> In x l.
Proof. intros H. rewrite <- (firstn_skipn n l). apply in_or_app. now right. Qed.

(** C2 as stated fails on the page.  The endpoint is unset; a video is
    loaded, then the URL input is edited to [x].  The stream reference is
    still present, so the manual-detect button is enabled, and a click
    runs [handleDetect]: its first guard reads the URL input and sets the
    load-a-valid-video message, not the configuration message the claim
    gives for the missing-configuration case. *)
Lemma detect_message_precedence :
  TRIO_API_URL (config_of_env Runs.env_no_url) = [] /\
  videoId (ui (run (config_of_env Runs.env_no_url) Sample.eng Runs.edited_unconfigured))
  = Some Sample.XsOU8JnEpNM /\
  detect_disabled
    (ui (run (config_of_env Runs.env_no_url) Sample.eng Runs.edited_unconfigured))
  = false /\
  errorTip
    (ui (step (config_of_env Runs.env_no_url) Sample.eng
           (run (config_of_env Runs.env_no_url) Sample.eng Runs.edited_unconfigured)
           EvDetectClick))
  = msg_load_first /\
  msg_load_first <> msg_bad_config.
Proof.
  split; [reflexivity|].
  split; [vm_compute; reflexivity|].
  split; [vm_compute; reflexivity|].
  split; [vm_compute; reflexivity|].
  intros H. vm_compute in H. discriminate H.
Qed.

(** C2, amended.  Take any reachable state of the page and any event, and
    suppose that in the state the event leaves the stream reference is
    absent, or the endpoint is empty, or the credential is empty (a click
    on the manual-detect button and a tick of the timer leave the stream
    reference as it is).  Then no call of [handleDetect] made during the
    event calls [fetch], and no timer is left running.  A timer tick does
    nothing, as no timer runs.  A click on the manual-detect button
    leaves the active alert count unchanged; while the button is
    disabled (no stream reference, or a call in flight) the click does
    nothing at all and no message is set; otherwise [handleDetect] runs,
    returns before [fetch] and sets the error message: the fixed
    load-a-valid-video message when the trimmed URL input yields no video
    id, the fixed configuration message otherwise.  Nothing else
    changes. *)
Theorem detect_unavailable (cfg : Config) (eng : Engine) (evs : list Event) (e : Event) :
  let pg := run cfg eng evs in
  let pg' := step cfg eng pg e in
  videoId (ui pg') = None \/ TRIO_API_URL cfg = [] \/ TRIO_API_KEY cfg = [] ->
  (forall r, ~ In (ObsFetch r) (skipn (length (trace pg)) (trace pg'))) /\
  timers pg' = [] /\
  (forall id, e = EvTick id -> pg' = pg) /\
  (e = EvDetectClick ->
   activeAlerts (ui pg') = activeAlerts (ui pg) /\
   if detect_disabled (ui pg) then pg' = pg
   else
     ui pg' = setErrorTip (if truthy_id (getYoutubeVideoId (trim (youtubeUrl (ui pg))))
                           then msg_bad_config else msg_load_first) (ui pg) /\
     inflight pg' = inflight pg /\
     trace pg' = trace pg ++ [ObsDetect]).
Proof.
  intros pg pg' H.
  pose proof (run_poll_timer cfg eng evs) as Hpt. fold pg in Hpt.
  pose proof (run_poll_timer cfg eng (evs ++ [e])) as Hpt'.
  rewrite run_snoc in Hpt'. fold pg pg' in Hpt'.
  pose proof (run_guarded cfg eng (evs ++ [e])) as (Hg & _).
  rewrite run_snoc in Hg. fold pg pg' in Hg. rewrite Forall_forall in Hg.
  assert (Hpg' : poll_guard cfg (ui pg') = false).
  { unfold poll_guard. destruct H as [-> | [-> | ->]].
    - reflexivity.
    - cbn [truthy_string]. now rewrite andb_false_r.
    - cbn [truthy_string]. apply andb_false_r. }
  split.
  { intros r Hin. destruct H as [H | H].
    - pose proof (fetch_needs_stream_reference cfg eng evs e r Hin) as Hv.
      fold pg pg' in Hv. rewrite H in Hv. discriminate Hv.
    - apply in_skipn in Hin. destruct (Hg _ Hin) as (url & id & _ & _ & Hu & Hk).
      destruct H; contradiction. }
  split.
  { unfold poll_timer in Hpt'. rewrite Hpg' in Hpt'. apply Hpt'. }
  split.
  { intros id ->. unfold pg', step. cbn [handle].
    destruct (find (fun t => Nat.eqb (timer_id t) id) (timers pg)) as [t|] eqn:Ef.
    - exfalso. unfold poll_timer in Hpt.
      destruct (poll_guard cfg (ui pg)) eqn:Eg;
        [|destruct Hpt as (_ & Ht); rewrite Ht in Ef; discriminate Ef].
      assert (E : pg' = call_handleDetect cfg (timer_url t) pg).
      { unfold pg', step. cbn [handle]. rewrite Ef. apply commit_call. }
      destruct (call_keeps_deps cfg (timer_url t) pg) as (Hv & Hy).
      rewrite E, (poll_guard_ext cfg _ (ui pg) Hv Hy), Eg in Hpg'. discriminate Hpg'.
    - unfold commit. now rewrite deps_changed_same. }
  intros ->.
  destruct (detect_disabled (ui pg)) eqn:Ed.
  - assert (E : pg' = pg).
    { unfold pg', step. cbn [handle]. rewrite Ed. unfold commit.
      now rewrite deps_changed_same. }
    rewrite E. split; reflexivity.
  - assert (E : pg' = call_handleDetect cfg (youtubeUrl (ui pg)) pg).
    { unfold pg', step. cbn [handle]. rewrite Ed. apply commit_call. }
    assert (Hv : truthy_id (videoId (ui pg)) = true).
    { unfold detect_disabled in Ed. apply orb_false_iff in Ed as [Ed _].
      now apply negb_false_iff in Ed. }
    assert (Hcfg : TRIO_API_URL cfg = [] \/ TRIO_API_KEY cfg = []).
    { destruct H as [H|H]; [|exact H]. exfalso.
      destruct (call_keeps_deps cfg (youtubeUrl (ui pg)) pg) as (Hvid & _).
      rewrite E, Hvid in H. rewrite H in Hv. discriminate Hv. }
    rewrite E. unfold call_handleDetect.
    rewrite (start_unconfigured cfg (youtubeUrl (ui pg)) (ui pg) Hcfg).
    cbn [ui inflight trace]. rewrite app_nil_r.
    split; [reflexivity|]. split; [reflexivity|]. split; reflexivity.
Qed.

Lemma detect_unavailable_witness :
  TRIO_API_URL (config_of_env Runs.env_no_url) = [] /\
  timers (step (config_of_env Runs.env_no_url) Sample.eng
            (run (config_of_env Runs.env_no_url) Sample.eng Runs.edited_unconfigured)
            EvDetectClick) = [] /\
  activeAlerts
    (ui (step (config_of_env Runs.env_no_url) Sample.eng
           (run (config_of_env Runs.env_no_url) Sample.eng Runs.edited_unconfigured)
           EvDetectClick))
  = activeAlerts
      (ui (run (config_of_env Runs.env_no_url) Sample.eng Runs.edited_unconfigured)).
Proof.
  split; [reflexivity|].
  pose proof (detect_unavailable (config_of_env Runs.env_no_url) Sample.eng
                Runs.edited_unconfigured EvDetectClick
                (or_intror (or_introl eq_refl))) as (_ & Ht & _ & Hc).
  split; [exact Ht|]. exact (proj1 (Hc eq_refl)).
Defined.

(* ================================================================== *)
(** ** The render *)

Lemma finish_result (eng : Engine) (o : Outcome) (s : State) :
  detectResult (handleDetect_finish eng o s)
  = match o with
    | Response true (BodyJson r) => r
    | _ => detectResult s
    end.
Proof.
  destruct o as [e|[|] [e|result]];
    try (match goal with
         | |- context [handleDetect_finish eng ?o s] =>
             now destruct (detect_failure_keeps_result eng o s I) as (-> & _)
         end).
  unfold handleDetect_finish, try_block.
  destruct (get eng result _) as [t|e]; [destruct (truthy_opt t)|]; reflexivity.
Qed.

Lemma step_renders (cfg : Config) (eng : Engine) (pg : Page) (e : Event) :
  result_renders (detectResult (ui pg)) = true ->
  event_renders e = true ->
  result_renders (detectResult (ui (step cfg eng pg e))) = true.
Proof.
  intros H He.
  assert (E : detectResult (ui (step cfg eng pg e))
              = detectResult (ui (handle cfg eng e pg))).
  { destruct (ui_step cfg eng pg e) as [-> | ->]; [reflexivity|].
    now destruct (handleDetect_start_frame cfg (youtubeUrl (ui (handle cfg eng e pg)))
                    (ui (handle cfg eng e pg))) as (_ & _ & _ & _ & ->). }
  rewrite E.
  assert (Hcall : forall url,
             result_renders (detectResult (ui (call_handleDetect cfg url pg))) = true).
  { intros url. destruct (call_handleDetect_frame cfg url pg) as (-> & _).
    now destruct (handleDetect_start_frame cfg url (ui pg)) as (_ & _ & _ & _ & ->). }
  destruct e as [text| | | | |id|n o]; cbn [handle].
  - exact H.
  - cbn [with_ui ui]. unfold loadVideo. destruct (negb _); reflexivity.
  - destruct (detect_disabled (ui pg)); [exact H | apply Hcall].
  - exact H.
  - reflexivity.
  - destruct (find _ _) as [t|]; [apply Hcall | exact H].
  - destruct (nth_error _ _); [|exact H]. cbn [with_ui set_inflight ui].
    rewrite finish_result. cbn [event_renders outcome_renders] in He.
    destruct o as [e|[|] [e|result]]; assumption.
Qed.

(** The page renders after every event of a sequence in which each
    HTTP-ok body that arrives can be rendered. *)
Lemma run_renders (cfg : Config) (eng : Engine) (evs : list Event) :
  forallb event_renders evs = true ->
  result_renders (detectResult (ui (run cfg eng evs))) = true.
Proof.
  unfold run. rewrite mounted_eq.
  assert (H0 : result_renders (detectResult (ui unmounted)) = true) by reflexivity.
  revert H0. generalize unmounted.
  induction evs as [|e evs IH]; intros pg Hpg H; cbn [fold_left]; [exact Hpg|].
  cbn [forallb] in H. apply andb_true_iff in H as [He H].
  apply IH; [|exact H]. now apply step_renders.
Qed.
